(** * Gaze: the notifier (pkg/notify) and the dispatcher (pkg/gazer)

    A shallow embedding of [pkg/notify/notify.go] and [pkg/gazer/gazer.go].

    - Go's [int64] and [uint64] are [Z] with the wrap-around written out.
    - [map[string]int64] is a [gmap string Z]; reading an absent key gives 0.
    - The filesystem, the clock and the watch source are the outside world:
      the probes of [pkg/fs] and [pkg/time] are fields of a world record,
      the clock is a sequence of readings consumed one per call of
      [time.Now].
    - The two [for { select { ... } }] loops are step functions over the
      values received from their channels, folded over a list of inputs. *)

From Stdlib Require Import ZArith String Ascii List Bool Lia.
From stdpp Require Import base option list gmap strings.
Import ListNotations.

Local Open Scope string_scope.
Local Open Scope list_scope.
Local Open Scope Z_scope.

(** ** Machine integers *)

Module Int64.

Definition modulus : Z := 2 ^ 64.
Definition half_modulus : Z := 2 ^ 63.
Definition min_signed : Z := - half_modulus.
Definition max_signed : Z := half_modulus - 1.

(** The value of an [int64] after an operation whose exact result is [x]. *)
Definition wrap (x : Z) : Z := (x + half_modulus) mod modulus - half_modulus.

Definition in_range (x : Z) : Prop := min_signed <= x <= max_signed.

Definition sub (a b : Z) : Z := wrap (a - b).
Definition mul (a b : Z) : Z := wrap (a * b).

(** [uint64] increment, as in [g.counter++]. *)
Definition uincr (c : Z) : Z := (c + 1) mod modulus.

End Int64.

(** ** The parts of Go's [strings] and [path/filepath] the code calls

    Paths are those of a Unix build: [filepath.Separator] is ["/"] and
    [filepath.ToSlash] is the identity. *)

Module Path.

Definition Separator : string := "/".
Definition sepChar : ascii := "/"%char.

(** [strings.Split(s, "/")]: the pieces between separators, never empty. *)
Fixpoint Split (s : string) : list string :=
  match s with
  | EmptyString => [EmptyString]
  | String c r =>
      if Ascii.eqb c sepChar then EmptyString :: Split r
      else match Split r with
           | h :: t => String c h :: t
           | [] => [String c EmptyString]
           end
  end.

(** [strings.Join(l, sep)]. *)
Fixpoint Join (l : list string) (sep : string) : string :=
  match l with
  | [] => ""
  | [x] => x
  | x :: rest => (x ++ sep ++ Join rest sep)%string
  end.

Fixpoint containsChar (c : ascii) (s : string) : bool :=
  match s with
  | EmptyString => false
  | String d r => Ascii.eqb c d || containsChar c r
  end.

(** [strings.IndexAny(s, chars) != -1]. *)
Fixpoint IndexAny_found (s chars : string) : bool :=
  match s with
  | EmptyString => false
  | String c r => containsChar c chars || IndexAny_found r chars
  end.

(** The characters of ["*?[{\\"]. *)
Definition globChars : string :=
  String "*" (String "?" (String "[" (String "{" (String "\" EmptyString)))).

Definition HasPrefixSep (s : string) : bool :=
  match s with
  | String c _ => Ascii.eqb c sepChar
  | EmptyString => false
  end.

(** One element of the path handled by [filepath.Clean]; [out] is the
    stack of elements kept so far, last one first. *)
Definition cleanStep (rooted : bool) (out : list string) (seg : string)
  : list string :=
  if String.eqb seg "" then out
  else if String.eqb seg "." then out
  else if String.eqb seg ".." then
    match out with
    | top :: rest =>
        if String.eqb top ".." then seg :: out else rest
    | [] => if rooted then out else [seg]
    end
  else seg :: out.

(** [filepath.Clean]: empty and ["."] elements dropped, [".."] cancelling
    the element before it, a rooted path keeping its root, the empty
    result written ["."]. *)
Definition Clean (path : string) : string :=
  if String.eqb path "" then "."
  else
    let rooted := HasPrefixSep path in
    let out := fold_left (cleanStep rooted) (Split path) [] in
    let body := Join (rev out) Separator in
    if rooted then (Separator ++ body)%string
    else if String.eqb body "" then "." else body.

(** [path[:i+1]] for [i] the index of the last separator; [None] when
    there is none. *)
Fixpoint uptoLastSep (s : string) : option string :=
  match s with
  | EmptyString => None
  | String c r =>
      match uptoLastSep r with
      | Some p => Some (String c p)
      | None => if Ascii.eqb c sepChar then Some (String c EmptyString)
                else None
      end
  end.

(** [filepath.Dir]. *)
Definition Dir (path : string) : string :=
  Clean (default "" (uptoLastSep path)).

(** [filepath.ToSlash]. *)
Definition ToSlash (path : string) : string := path.

End Path.

(** ** The outside world

    [pkg/fs], [pkg/time] and [pkg/uniq] lie outside the two verified files.
    What the first two report depends on the disk and on the clock, so their probes
    are fields of a record: one snapshot of the world per received event. *)

Inductive error : Type := mkError (msg : string).

Record World : Type := mkWorld {
  (** [fs.IsDir], [fs.IsFile] *)
  IsDir : string -> bool;
  IsFile : string -> bool;
  (** [time.GetFileModifiedTime], an [int64] of nanoseconds *)
  GetFileModifiedTime : string -> Z;
  (** [fs.Find]: the files and the directories a pattern expands to *)
  Find : string -> list string * list string;
  (** [fs.GlobMatch pattern name] *)
  GlobMatch : string -> string -> bool;
  (** [fsnotify.NewWatcher]: the error it returns, if any *)
  NewWatcher : option error;
  (** [watcher.Add]: the error it returns for a directory, if any *)
  watcherAdd : string -> option error
}.

Module Fs.

(** Modelled from the spec: [fs.TrimSuffix] is in [pkg/fs], which is
    missing; the spec has the resolver take the leading path prefix, so
    the helper is read as its name says: [s] without its final [suffix]
    when it ends in it, here for the one-character separator. *)
Fixpoint TrimSuffixSep (s : string) : option string :=
  match s with
  | EmptyString => None
  | String c r =>
      match TrimSuffixSep r with
      | Some p => Some (String c p)
      | None => if String.eqb r "" && Ascii.eqb c Path.sepChar
                then Some EmptyString else None
      end
  end.

Definition TrimSuffix (s : string) : string := default s (TrimSuffixSep s).

End Fs.

(** The clock: [time.Now] returns the next reading, and the number of
    readings made so far is threaded through the code that calls it. *)

Module Clock.

Definition M (A : Type) : Type := nat -> A * nat.

Definition ret {A} (a : A) : M A := fun t => (a, t).

Definition bind {A B} (c : M A) (k : A -> M B) : M B :=
  fun t => let '(a, t') := c t in k a t'.

(** [time.Now()] *)
Definition Now (clock : nat -> Z) : M Z := fun t => (clock t, S t).

(** A clock that never goes back. *)
Definition monotone (clock : nat -> Z) : Prop :=
  forall i j : nat, (i <= j)%nat -> clock i <= clock j.

End Clock.

Notation "'let*' x ':=' c 'in' k" := (Clock.bind c (fun x => k))
  (at level 10, x name, c at level 100, k at level 200).

Module Uniq.

(** Modelled from the spec: [pkg/uniq] is missing; the spec calls what
    the resolver accumulates into "a deduplicated, insertion-ordered
    set": [Add] keeps the first occurrence of a string, [List] gives the
    strings in the order they were first added. *)
Definition t : Type := list string.

Definition New : t := [].

Definition Add (u : list string) (s : string) : t :=
  if bool_decide (s ∈ u) then u else u ++ [s].

Definition Len (u : t) : Z := Z.of_nat (length u).

Definition List (u : t) : list string := u.

End Uniq.

(** [fsnotify.Op]: a set of operation bits in a [uint32]. *)

Module Op.

Definition Create : Z := 1.
Definition Write : Z := 2.
Definition Remove : Z := 4.
Definition Rename : Z := 8.
Definition Chmod : Z := 16.

End Op.

(** What a Go function leaves behind: the values it returns, or a run-time
    panic. *)
Inductive outcome (A : Type) : Type :=
| Returned (a : A)
| Panicked (msg : string).
Arguments Returned {A} a.
Arguments Panicked {A} msg.

(** ** pkg/notify/notify.go *)

Module Notify.

(** [type Notify struct]. The two channels are the outputs of [wait];
    [watcher] is the set of directories the watch source holds. *)
Record Notify : Type := mkNotify {
  watcher : gset string;
  isClosed : bool;
  times : gmap string Z;
  pendingPeriod : Z;
  regardRenameAsModPeriod : Z;
  detectCreate : bool
}.

(** [type Event struct] *)
Record Event : Type := mkEvent { Name : string; Time : Z }.

(** An event of the watch source, [fsnotify.Event]. *)
Record RawEvent : Type := mkRaw { rawName : string; rawOp : Z }.

(** Receiving from a closed channel gives the zero value and [ok = false]. *)
Definition zeroRaw : RawEvent := {| rawName := ""; rawOp := 0 |}.

(** [n.times[filePath]]: an absent key reads as 0. *)
Definition timesAt (n : Notify) (filePath : string) : Z :=
  default 0 (times n !! filePath).

Definition setTimes (n : Notify) (m : gmap string Z) : Notify :=
  {| watcher := watcher n; isClosed := isClosed n; times := m;
     pendingPeriod := pendingPeriod n;
     regardRenameAsModPeriod := regardRenameAsModPeriod n;
     detectCreate := detectCreate n |}.

Definition setWatcher (n : Notify) (ws : gset string) : Notify :=
  {| watcher := ws; isClosed := isClosed n; times := times n;
     pendingPeriod := pendingPeriod n;
     regardRenameAsModPeriod := regardRenameAsModPeriod n;
     detectCreate := detectCreate n |}.

(** [watcher.Add(dir)]: the directory joins the watch set unless the
    watch source reports an error. *)
Definition watcherAdded (w : World) (ws : gset string) (dir : string)
  : gset string :=
  match watcherAdd w dir with
  | None => {[ dir ]} ∪ ws
  | Some _ => ws
  end.

(** The loop of [findRealDirectory]: the entries before the first one
    with a glob character, each followed by the separator. *)
Fixpoint literalEntries (entries : list string) (currentPath : string)
  : string :=
  match entries with
  | [] => currentPath
  | e :: rest =>
      if Path.IndexAny_found e Path.globChars then currentPath
      else literalEntries rest (currentPath ++ e ++ Path.Separator)%string
  end.

Definition findRealDirectory (w : World) (path : string) : string :=
  let entries := Path.Split (Path.ToSlash (Path.Clean path)) in
  let currentPath := Fs.TrimSuffix (literalEntries entries "") in
  if IsDir w currentPath then currentPath else "".

Definition addAll (targets : Uniq.t) (dirs : list string) : Uniq.t :=
  fold_left Uniq.Add dirs targets.

(** The body of [findDirs]' loop, from the second pattern on with the
    targets gathered so far. *)
Fixpoint findDirsFrom (w : World) (maxWatchDirs : Z)
    (patterns : list string) (targets : Uniq.t) : list string :=
  match patterns with
  | [] => Uniq.List targets
  | pattern :: rest =>
      let patternDir := Path.Dir pattern in
      let realDir := findRealDirectory w patternDir in
      let targets1 :=
        if (0 <? Z.of_nat (String.length realDir))
        then Uniq.Add targets realDir else targets in
      if Uniq.Len targets1 >? maxWatchDirs then Uniq.List targets1
      else
        let targets2 := addAll targets1 (snd (Find w pattern)) in
        if Uniq.Len targets2 >? maxWatchDirs then Uniq.List targets2
        else
          let targets3 := addAll targets2 (snd (Find w patternDir)) in
          if Uniq.Len targets3 >? maxWatchDirs then Uniq.List targets3
          else findDirsFrom w maxWatchDirs rest targets3
  end.

Definition findDirs (w : World) (patterns : list string) (maxWatchDirs : Z)
  : list string :=
  findDirsFrom w maxWatchDirs patterns Uniq.New.

(** [s[:n]] on a slice of length and capacity [length s]. *)
Definition sliceTo {A} (s : list A) (n : Z) : outcome (list A) :=
  if (n <? 0) || (Z.of_nat (length s) <? n)
  then Panicked "slice bounds out of range"
  else Returned (firstn (Z.to_nat n) s).

(** [New]: the returned pair [( *Notify, error)], and the watch set of
    the watch source the call created (empty when none was created). *)
Definition New (w : World) (patterns : list string) (maxWatchDirs : Z)
  : outcome (option Notify * option error) * gset string :=
  match NewWatcher w with
  | Some err => (Returned (None, Some err), ∅)
  | None =>
      let watchDirs := findDirs w patterns maxWatchDirs in
      if Z.of_nat (length watchDirs) >? maxWatchDirs then
        match sliceTo watchDirs maxWatchDirs with
        | Panicked msg => (Panicked msg, ∅)
        | Returned _ =>
            (Returned (None, Some (mkError "too many watchDirs")), ∅)
        end
      else
        let ws := fold_left (watcherAdded w) watchDirs ∅ in
        let notify :=
          {| watcher := ws; isClosed := false; times := ∅;
             pendingPeriod := 100; regardRenameAsModPeriod := 1000;
             detectCreate := true |} in
        (Returned (Some notify, None), ws)
  end.

(** [shouldExecute]; the clock is read in the rename branch only. *)
Definition shouldExecute (w : World) (clock : nat -> Z) (n : Notify)
    (filePath : string) (op : Z) : Clock.M bool :=
  if negb (op =? Op.Write) && negb (op =? Op.Rename)
     && negb (detectCreate n && (op =? Op.Create))
  then Clock.ret false
  else
    let lastExecutionTime := timesAt n filePath in
    if negb (IsFile w filePath) then Clock.ret false
    else
      let modifiedTime := GetFileModifiedTime w filePath in
      if ((op =? Op.Write) || (op =? Op.Create))
         && (Int64.sub modifiedTime lastExecutionTime
             <? Int64.mul (pendingPeriod n) 1000000)
      then Clock.ret false
      else if op =? Op.Rename then
        let* now := Clock.Now clock in
        let elapsed := Int64.sub now modifiedTime in
        if elapsed >? Int64.mul (regardRenameAsModPeriod n) 1000000
        then Clock.ret false
        else Clock.ret true
      else Clock.ret true.

(** What [select] hands to [wait]: a receive on [watcher.Events] or on
    [watcher.Errors], [None] when that channel is closed. *)
Inductive input : Type :=
| OnEvents (e : option RawEvent)
| OnErrors (e : option error).

(** What [wait] sends: on [n.Events] or on [n.Errors]. *)
Inductive output : Type :=
| SendEvent (e : Event)
| SendError (e : error).

(** The first [if] of the loop of [wait]: a directory just created joins
    the watch set; nothing else of the notifier changes. *)
Definition afterWatch (w : World) (n : Notify) (event : RawEvent) : Notify :=
  let normalizedName := Path.Clean (rawName event) in
  if (rawOp event =? Op.Create) && IsDir w normalizedName
  then setWatcher n (watcherAdded w (watcher n) normalizedName)
  else n.

(** One iteration of the loop of [wait]. *)
Definition waitStep (w : World) (clock : nat -> Z) (n : Notify) (i : input)
  : Clock.M (Notify * list output) :=
  match i with
  | OnEvents r =>
      let event := default zeroRaw r in
      let ok := bool_decide (is_Some r) in
      let normalizedName := Path.Clean (rawName event) in
      let n1 := afterWatch w n event in
      if negb ok then Clock.ret (n1, [])
      else
        let* run := shouldExecute w clock n1 normalizedName (rawOp event) in
        if negb run then Clock.ret (n1, [])
        else
          let* now := Clock.Now clock in
          let n2 := setTimes n1 (<[normalizedName := now]> (times n1)) in
          let e := {| Name := normalizedName; Time := now |} in
          Clock.ret (n2, [SendEvent e])
  | OnErrors r =>
      match r with
      | None => Clock.ret (n, [])
      | Some err => Clock.ret (n, [SendError err])
      end
  end.

(** The loop of [wait] over the inputs received, each with the state of
    the world at that moment; the outputs are in the order sent. *)
Fixpoint waitRun (clock : nat -> Z) (n : Notify)
    (inputs : list (World * input)) : Clock.M (Notify * list output) :=
  match inputs with
  | [] => Clock.ret (n, [])
  | (w, i) :: rest =>
      let* r := waitStep w clock n i in
      let* r' := waitRun clock (fst r) rest in
      Clock.ret (fst r', snd r ++ snd r')
  end.

(** [PendingPeriod] *)
Definition PendingPeriod (n : Notify) (p : Z) : Notify :=
  {| watcher := watcher n; isClosed := isClosed n; times := times n;
     pendingPeriod := p;
     regardRenameAsModPeriod := regardRenameAsModPeriod n;
     detectCreate := detectCreate n |}.

(** The events among the outputs. *)
Definition eventsOf (outs : list output) : list Event :=
  omap (fun o => match o with SendEvent e => Some e | SendError _ => None end)
       outs.

(** The parts of what [waitStep] and [waitRun] give back at a clock
    position: the notifier, the events sent, the clock position. *)
Definition stateOf (r : Notify * list output * nat) : Notify := fst (fst r).
Definition sent (r : Notify * list output * nat) : list Event :=
  eventsOf (snd (fst r)).
Definition ticksOf (r : Notify * list output * nat) : nat := snd r.

(** No stored time is later than the next reading of the clock. *)
Definition timesBelow (clock : nat -> Z) (t : nat) (n : Notify) : Prop :=
  forall (p : string) (v : Z), times n !! p = Some v -> v <= clock t.


(** [Close]: the notifier after the call, and the number of calls of
    [watcher.Close] it made. *)
Definition Close (n : Notify) : Notify * nat :=
  if isClosed n then (n, 0%nat)
  else
    ({| watcher := watcher n; isClosed := true; times := times n;
        pendingPeriod := pendingPeriod n;
        regardRenameAsModPeriod := regardRenameAsModPeriod n;
        detectCreate := detectCreate n |}, 1%nat).

(** [Requeue]: the event goes out on [n.Events] as it is; the notifier is
    not touched. *)
Definition Requeue (n : Notify) (event : Event) : Notify * list output :=
  (n, [SendEvent event]).

(** The raw event a received value stands for, when the loop of [wait]
    handles it as an event of an open channel. *)
Definition rawOf (i : input) : option RawEvent :=
  match i with
  | OnEvents (Some raw) => Some raw
  | _ => None
  end.

(** The error a received value carries. *)
Definition errorOf (i : input) : option error :=
  match i with
  | OnErrors (Some err) => Some err
  | _ => None
  end.

End Notify.

(** ** pkg/gazer/gazer.go *)

Module Gazer.

(** The fields of a [config.Command] the dispatcher reads. *)
Record Command : Type := mkCommand { Ext : string; Re : string; Run : string }.

(** [config.Config] *)
Record Config : Type := mkConfig { Commands : list Command }.

(** The event as [repeatRunAndWait] reads it: a name and an operation. *)
Record Event : Type := mkEvent { Name : string; Op : Z }.

Definition zeroEvent : Event := {| Name := ""; Op := 0 |}.

(** [type Gazer struct]; [notify] is a pointer, [None] for nil. *)
Record Gazer : Type := mkGazer {
  patterns : list string;
  notify : option Notify.Notify;
  isClosed : bool;
  counter : Z
}.

(** [*exec.Cmd], as made by [createCommand] from a command string. *)
Record Cmd : Type := createCommand { commandLine : string }.

(** [New]. The call of [notify.New] is an argument: it is given the
    cleaned patterns, and the error it returns is dropped. *)
Definition New
    (notifyNew : list string
                 -> outcome (option Notify.Notify * option error))
    (patterns : list string) : outcome Gazer :=
  let cleanPatterns := map Path.Clean patterns in
  match notifyNew cleanPatterns with
  | Panicked msg => Panicked msg
  | Returned (notify, _) =>
      Returned {| patterns := cleanPatterns; notify := notify;
                  isClosed := false; counter := 0 |}
  end.

(** [matchAny] *)
Fixpoint matchAny (w : World) (watchFiles : list string) (s : string)
  : bool :=
  match watchFiles with
  | [] => false
  | f :: rest => if GlobMatch w f s then true else matchAny w rest s
  end.

(** What the loop does to the outside, in order. *)
Inductive action : Type :=
| DebugReceive (name : string)
| DebugCommandNotFound (name : string)
| NoticeCommand (commandString : string)
| Kill (cmd : Cmd) (reason : string)
| Execute (cmd : Cmd) (timeout : Z)
| GoExecute (cmd : Cmd) (timeout : Z).

(** What the loop reacts to: a receive on [g.notify.Events] ([None] when
    the channel is closed), the interrupt signal, and the end of the
    goroutine started in restart mode, which clears [ongoingCommand]. *)
Inductive input : Type :=
| OnEvents (e : option Event)
| OnSigInt
| GoroutineEnd.

(** The local variables of [repeatRunAndWait]. *)
Record locals : Type := mkLocals {
  lastExecutionTime : Z;
  ongoingCommand : option Cmd;
  returned : bool
}.

Definition initLocals : locals :=
  {| lastExecutionTime := 0; ongoingCommand := None; returned := false |}.

Definition ignorePeriod : Z := Int64.mul 10 1000000.

Definition flag : Z := Z.lor Op.Write Op.Rename.

Definition incrCounter (g : Gazer) : Gazer :=
  {| patterns := patterns g; notify := notify g; isClosed := isClosed g;
     counter := Int64.uincr (counter g) |}.

Section Dispatch.

(** [c.Match(filePath)] of [pkg/config] and [render] of the package. *)
Variable Match : Command -> string -> bool.
Variable render : string -> string -> string.

(** [getAppropriateCommand], on the list [commandConfigs.Commands]. *)
Fixpoint getAppropriateCommandIn (filePath : string)
    (commands : list Command) : string :=
  match commands with
  | [] => ""
  | c :: rest =>
      if String.eqb (Run c) ""
         || (String.eqb (Ext c) "" && String.eqb (Re c) "")
      then getAppropriateCommandIn filePath rest
      else if Match c filePath then render (Run c) filePath
      else getAppropriateCommandIn filePath rest
  end.

Definition getAppropriateCommand (filePath : string)
    (commandConfigs : Config) : string :=
  getAppropriateCommandIn filePath (Commands commandConfigs).

(** The three tests of the loop that end an iteration before the
    counter is touched, in the order the loop makes them: [true] when
    none of them fires. *)
Definition passes (w : World) (g : Gazer) (l : locals)
    (r : option Event) : bool :=
  let event := default zeroEvent r in
  let ok := bool_decide (is_Some r) in
  negb (ok && (Z.lor (Op event) flag =? 0))
  && matchAny w (patterns g) (Name event)
  && negb (Int64.sub (GetFileModifiedTime w (Name event))
             (lastExecutionTime l) <? ignorePeriod).

(** One iteration of the loop of [repeatRunAndWait]. *)
Definition step (w : World) (clock : nat -> Z) (commandConfigs : Config)
    (timeout : Z) (restart : bool) (g : Gazer) (l : locals) (i : input)
  : Clock.M (Gazer * locals * list action) :=
  match i with
  | OnEvents r =>
      let event := default zeroEvent r in
      let ok := bool_decide (is_Some r) in
      let log := [DebugReceive (Name event)] in
      if ok && (Z.lor (Op event) flag =? 0) then Clock.ret (g, l, log)
      else if negb (matchAny w (patterns g) (Name event))
      then Clock.ret (g, l, log)
      else
        let modifiedTime := GetFileModifiedTime w (Name event) in
        if Int64.sub modifiedTime (lastExecutionTime l) <? ignorePeriod
        then Clock.ret (g, l, log)
        else
          let g1 := incrCounter g in
          let commandString :=
            getAppropriateCommand (Name event) commandConfigs in
          if String.eqb commandString "" then
            Clock.ret (g1, l, log ++ [DebugCommandNotFound (Name event)])
          else
            let kills :=
              match ongoingCommand l with
              | Some c => [Kill c "Restart"]
              | None => []
              end in
            let cmd := createCommand commandString in
            let* now := Clock.Now clock in
            if negb restart then
              Clock.ret
                (g1,
                 {| lastExecutionTime := now; ongoingCommand := None;
                    returned := returned l |},
                 log ++ [NoticeCommand commandString] ++ kills
                     ++ [Execute cmd timeout])
            else
              Clock.ret
                (g1,
                 {| lastExecutionTime := now; ongoingCommand := Some cmd;
                    returned := returned l |},
                 log ++ [NoticeCommand commandString] ++ kills
                     ++ [GoExecute cmd timeout])
  | OnSigInt =>
      Clock.ret
        (g,
         {| lastExecutionTime := lastExecutionTime l;
            ongoingCommand := ongoingCommand l; returned := true |},
         [])
  | GoroutineEnd =>
      Clock.ret
        (g,
         {| lastExecutionTime := lastExecutionTime l;
            ongoingCommand := None; returned := returned l |},
         [])
  end.

(** The loop over the inputs it meets, until it returns. *)
Fixpoint loop (clock : nat -> Z) (commandConfigs : Config) (timeout : Z)
    (restart : bool) (g : Gazer) (l : locals)
    (inputs : list (World * input))
  : Clock.M (Gazer * locals * list action) :=
  match inputs with
  | [] => Clock.ret (g, l, [])
  | (w, i) :: rest =>
      if returned l then Clock.ret (g, l, [])
      else
        let* r := step w clock commandConfigs timeout restart g l i in
        let* r' := loop clock commandConfigs timeout restart
                     (fst (fst r)) (snd (fst r)) rest in
        Clock.ret (fst (fst r'), snd (fst r'), snd r ++ snd r')
  end.

(** [repeatRunAndWait] on the inputs it meets. *)
Definition repeatRunAndWait (clock : nat -> Z) (commandConfigs : Config)
    (timeout : Z) (restart : bool) (g : Gazer)
    (inputs : list (World * input))
  : Clock.M (Gazer * locals * list action) :=
  loop clock commandConfigs timeout restart g initLocals inputs.

End Dispatch.

(** [Counter] *)
Definition Counter (g : Gazer) : Z := counter g.

(** The commands started among the actions. *)
Definition started (acts : list action) : list string :=
  omap (fun a => match a with
                 | Execute c _ | GoExecute c _ => Some (commandLine c)
                 | _ => None
                 end) acts.

(** The parts of what [step] and [loop] give back at a clock position. *)
Definition gazerOf (r : Gazer * locals * list action * nat) : Gazer :=
  fst (fst (fst r)).
Definition localsOf (r : Gazer * locals * list action * nat) : locals :=
  snd (fst (fst r)).
Definition actionsOf (r : Gazer * locals * list action * nat)
  : list action := snd (fst r).

(** The commands killed, and those started in a goroutine, among the
    actions. *)
Definition killed (acts : list action) : list Cmd :=
  omap (fun a => match a with Kill c _ => Some c | _ => None end) acts.

Definition spawned (acts : list action) : list Cmd :=
  omap (fun a => match a with GoExecute c _ => Some c | _ => None end) acts.

(** The names logged as having no command. *)
Definition notFound (acts : list action) : list string :=
  omap (fun a => match a with
                 | DebugCommandNotFound name => Some name
                 | _ => None
                 end) acts.

(** The command the loop keeps track of, as a list. *)
Definition tracked (l : locals) : list Cmd :=
  match ongoingCommand l with
  | Some c => [c]
  | None => []
  end.

(** [Close]: the dispatcher after the call and the number of calls of
    [watcher.Close] made; [g.notify.Close()] on a nil notifier reads
    [n.isClosed] through a nil pointer. *)
Definition Close (g : Gazer) : outcome (Gazer * nat) :=
  if isClosed g then Returned (g, 0%nat)
  else
    match notify g with
    | None => Panicked "nil pointer dereference"
    | Some n =>
        let '(n', calls) := Notify.Close n in
        Returned ({| patterns := patterns g; notify := Some n';
                     isClosed := true; counter := counter g |}, calls)
    end.

Section Entry.

Variable Match : Command -> string -> bool.
Variable render : string -> string -> string.

(** [Run] (the name is taken by the field of a rule): the first [select]
    reads [g.notify.Events], through a nil pointer when the dispatcher
    has no notifier. *)
Definition GazerRun (clock : nat -> Z) (configs : Config) (timeout : Z)
    (restart : bool) (g : Gazer) (inputs : list (World * input)) (t : nat)
  : outcome (Gazer * locals * list action * nat) :=
  match notify g with
  | None => Panicked "nil pointer dereference"
  | Some _ =>
      Returned (repeatRunAndWait Match render clock configs timeout restart
                  g inputs t)
  end.

(** What one iteration of the loop does, case by case: the input, and the
    dispatcher, the locals, the actions and the clock position after
    it. *)
Inductive stepKind (g : Gazer) (l : locals) (t : nat) (w : World)
    (clock : nat -> Z) (cfg : Config) (timeout : Z) (restart : bool)
  : input -> Gazer * locals * list action * nat -> Prop :=
| Ignored ev :
    passes w g l ev = false ->
    stepKind g l t w clock cfg timeout restart (OnEvents ev)
      (g, l, [DebugReceive (Name (default zeroEvent ev))], t)
| NotFound ev :
    passes w g l ev = true ->
    getAppropriateCommand Match render (Name (default zeroEvent ev)) cfg
    = "" ->
    stepKind g l t w clock cfg timeout restart (OnEvents ev)
      (incrCounter g, l,
       [DebugReceive (Name (default zeroEvent ev));
        DebugCommandNotFound (Name (default zeroEvent ev))], t)
| Dispatched ev commandString :
    passes w g l ev = true ->
    commandString
    = getAppropriateCommand Match render (Name (default zeroEvent ev)) cfg ->
    commandString <> "" ->
    stepKind g l t w clock cfg timeout restart (OnEvents ev)
      (incrCounter g,
       {| lastExecutionTime := clock t;
          ongoingCommand :=
            if restart then Some (createCommand commandString) else None;
          returned := returned l |},
       [DebugReceive (Name (default zeroEvent ev));
        NoticeCommand commandString]
         ++ map (fun c => Kill c "Restart") (tracked l)
         ++ [if restart then GoExecute (createCommand commandString) timeout
             else Execute (createCommand commandString) timeout],
       S t)
| Interrupted :
    stepKind g l t w clock cfg timeout restart OnSigInt
      (g,
       {| lastExecutionTime := lastExecutionTime l;
          ongoingCommand := ongoingCommand l; returned := true |}, [], t)
| GoroutineEnded :
    stepKind g l t w clock cfg timeout restart GoroutineEnd
      (g,
       {| lastExecutionTime := lastExecutionTime l;
          ongoingCommand := None; returned := returned l |}, [], t).

End Entry.

End Gazer.

(** ** The directory resolver, as the specification words it

    These definitions follow the description of the resolver, not the
    code: they are what [findDirs] is compared with. *)

Module ResolverSpec.

(** The entries before the first one with a glob metacharacter. *)
Fixpoint leadingLiteral (entries : list string) : list string :=
  match entries with
  | [] => []
  | e :: rest =>
      if Path.IndexAny_found e Path.globChars then []
      else e :: leadingLiteral rest
  end.

(** The literal, non-glob, leading prefix of a path. *)
Definition literalPrefix (path : string) : string :=
  Path.Join (leadingLiteral (Path.Split (Path.Clean path))) Path.Separator.

(** The strings of [l] not in [seen], each once, in the order of their
    first occurrence. *)
Fixpoint distinct (seen l : list string) : list string :=
  match l with
  | [] => []
  | x :: rest =>
      if bool_decide (x ∈ seen) then distinct seen rest
      else x :: distinct (seen ++ [x]) rest
  end.

(** The prefix as a source: itself when it is an existing directory. *)
Definition prefixSource (w : World) (prefix : string) : list string :=
  if IsDir w prefix && negb (String.eqb prefix "") then [prefix] else [].

(** The three sources of a pattern as the specification states them:
    the literal prefix of the pattern, the directories of the expansion
    of the pattern, those of the expansion of its parent. *)
Definition sourcesAsStated (w : World) (pattern : string)
  : list (list string) :=
  [ prefixSource w (literalPrefix pattern);
    snd (Find w pattern);
    snd (Find w (Path.Dir pattern)) ].

(** The same with the literal prefix of the pattern's parent. *)
Definition sources (w : World) (pattern : string) : list (list string) :=
  [ prefixSource w (literalPrefix (Path.Dir pattern));
    snd (Find w pattern);
    snd (Find w (Path.Dir pattern)) ].

(** Accumulate the sources in order into a deduplicated set, and stop
    after the first source that takes its size over [maxDirs]. *)
Fixpoint resolveFrom (maxDirs : Z) (srcs : list (list string))
    (acc : list string) : list string :=
  match srcs with
  | [] => acc
  | src :: rest =>
      let acc' := acc ++ distinct acc src in
      if Z.of_nat (length acc') >? maxDirs then acc'
      else resolveFrom maxDirs rest acc'
  end.

Definition resolve (maxDirs : Z) (srcs : list (list string))
  : list string := resolveFrom maxDirs srcs [].

(** The resolver of the specification as stated, and as amended. *)
Definition resolveAsStated (w : World) (patterns : list string)
    (maxDirs : Z) : list string :=
  resolve maxDirs (concat (map (sourcesAsStated w) patterns)).

Definition resolveDirs (w : World) (patterns : list string)
    (maxDirs : Z) : list string :=
  resolve maxDirs (concat (map (sources w) patterns)).

(** A string without any glob metacharacter. *)
Definition noGlob (s : string) : Prop :=
  Path.IndexAny_found s Path.globChars = false.

End ResolverSpec.

(** ** Concrete worlds, used to run the code *)

Module Sample.

(** A disk with two regular files, [notes.txt] and [src/main.go], and the
    directories [.] and [src]; every file was last modified at [mtime].
    The glob matcher knows [*.txt] and [src/*.go]. *)
Definition isFile (p : string) : bool :=
  String.eqb p "notes.txt" || String.eqb p "src/main.go".

Definition isDir (p : string) : bool :=
  String.eqb p "." || String.eqb p "src".

Definition find (pattern : string) : list string * list string :=
  if String.eqb pattern "." then ([], ["."])
  else if String.eqb pattern "src" then ([], ["src"])
  else if String.eqb pattern "src/*.go" then (["src/main.go"], [])
  else if String.eqb pattern "*.txt" then (["notes.txt"], [])
  else ([], []).

Definition globMatch (pattern name : string) : bool :=
  (String.eqb pattern "*.txt" && String.eqb name "notes.txt")
  || (String.eqb pattern "src/*.go" && String.eqb name "src/main.go").

Definition disk (mtime : Z) : World :=
  {| IsDir := isDir; IsFile := isFile;
     GetFileModifiedTime := fun _ => mtime;
     Find := find; GlobMatch := globMatch;
     NewWatcher := None; watcherAdd := fun _ => None |}.

(** The same disk with a watch source that cannot be created. *)
Definition brokenDisk (mtime : Z) : World :=
  {| IsDir := isDir; IsFile := isFile;
     GetFileModifiedTime := fun _ => mtime;
     Find := find; GlobMatch := globMatch;
     NewWatcher := Some (mkError "too many open files");
     watcherAdd := fun _ => None |}.

(** Nanoseconds since the epoch at some instant, and a clock that
    advances by a microsecond per reading from [start]. *)
Definition epoch : Z := 1700000000000000000.

Definition clockFrom (start : Z) (i : nat) : Z := start + 1000 * Z.of_nat i.

Definition ms (k : Z) : Z := k * 1000000.

(** The notifier [New] returns, before any event. *)
Definition fresh : Notify.Notify :=
  {| Notify.watcher := ∅; Notify.isClosed := false; Notify.times := ∅;
     Notify.pendingPeriod := 100; Notify.regardRenameAsModPeriod := 1000;
     Notify.detectCreate := true |}.

Definition rawWrite (name : string) : Notify.RawEvent :=
  {| Notify.rawName := name; Notify.rawOp := Op.Write |}.

Definition rawRename (name : string) : Notify.RawEvent :=
  {| Notify.rawName := name; Notify.rawOp := Op.Rename |}.

(** A command table: [.txt] files are echoed, [.go] files are built; the
    first rule has no run-template, the second no predicate. *)
Definition config : Gazer.Config :=
  {| Gazer.Commands :=
       [ {| Gazer.Ext := ".txt"; Gazer.Re := ""; Gazer.Run := "" |};
         {| Gazer.Ext := ""; Gazer.Re := ""; Gazer.Run := "true" |};
         {| Gazer.Ext := ".txt"; Gazer.Re := ""; Gazer.Run := "echo {file}" |};
         {| Gazer.Ext := ".go"; Gazer.Re := "";
            Gazer.Run := "go build {file}" |} ] |}.

(** The same table without the rule for [.go] files. *)
Definition txtOnly : Gazer.Config :=
  {| Gazer.Commands :=
       [ {| Gazer.Ext := ".txt"; Gazer.Re := "";
            Gazer.Run := "echo {file}" |} ] |}.

Definition hasSuffix (s suffix : string) : bool :=
  (String.length suffix <=? String.length s)%nat
  && String.eqb
       (String.substring (String.length s - String.length suffix)
          (String.length suffix) s)
       suffix.

(** A match predicate: a rule with an empty extension accepts every
    path, another one the paths that end in its extension. *)
Definition matchExt (c : Gazer.Command) (filePath : string) : bool :=
  String.eqb (Gazer.Ext c) "" || hasSuffix filePath (Gazer.Ext c).

(** A renderer: every [{file}] of the template becomes the path. *)
Fixpoint renderFrom (skip : nat) (template filePath : string) : string :=
  match template with
  | EmptyString => EmptyString
  | String c rest =>
      match skip with
      | S k => renderFrom k rest filePath
      | O =>
          if String.prefix "{file}" template
          then (filePath ++ renderFrom 5 rest filePath)%string
          else String c (renderFrom 0 rest filePath)
      end
  end.

Definition render (template filePath : string) : string :=
  renderFrom 0 template filePath.

(** A dispatcher watching [*.txt] and [src/*.go], before any event. *)
Definition gazer : Gazer.Gazer :=
  {| Gazer.patterns := ["*.txt"; "src/*.go"]; Gazer.notify := Some fresh;
     Gazer.isClosed := false; Gazer.counter := 0 |}.

Definition event (name : string) (op : Z) : Gazer.Event :=
  {| Gazer.Name := name; Gazer.Op := op |}.

End Sample.

(** * Properties *)

(** ** Machine integers *)

Module Int64Facts.

Lemma wrap_in_range x : Int64.in_range (Int64.wrap x).
Proof.
  unfold Int64.in_range, Int64.wrap, Int64.min_signed, Int64.max_signed,
    Int64.modulus, Int64.half_modulus.
  pose proof (Z.mod_pos_bound (x + 2 ^ 63) (2 ^ 64) ltac:(lia)). lia.
Qed.

Lemma wrap_small x : Int64.in_range x -> Int64.wrap x = x.
Proof.
  unfold Int64.in_range, Int64.wrap, Int64.min_signed, Int64.max_signed,
    Int64.modulus, Int64.half_modulus.
  intros H. rewrite Z.mod_small; lia.
Qed.

Lemma sub_exact a b : Int64.in_range (a - b) -> Int64.sub a b = a - b.
Proof. apply wrap_small. Qed.

Lemma mul_exact a b : Int64.in_range (a * b) -> Int64.mul a b = a * b.
Proof. apply wrap_small. Qed.

(** Two non-negative [int64] never overflow when subtracted. *)
Lemma sub_nonneg a b :
  0 <= a <= Int64.max_signed -> 0 <= b <= Int64.max_signed ->
  Int64.sub a b = a - b.
Proof.
  intros Ha Hb. apply sub_exact. revert Ha Hb.
  unfold Int64.in_range, Int64.min_signed, Int64.max_signed,
    Int64.half_modulus. lia.
Qed.

Lemma uincr_small c : 0 <= c < Int64.modulus - 1 -> Int64.uincr c = c + 1.
Proof.
  unfold Int64.uincr, Int64.modulus. intros H. rewrite Z.mod_small; lia.
Qed.

Lemma ignorePeriod_value : Gazer.ignorePeriod = 10000000.
Proof. reflexivity. Qed.

End Int64Facts.

Arguments Int64.sub : simpl never.
Arguments Int64.mul : simpl never.
Arguments Int64.uincr : simpl never.
Arguments Path.Clean : simpl never.
Arguments Path.Dir : simpl never.

(** ** The notifier *)

Module NotifyFacts.

Import Notify.

(** The threshold of the write filter at the default period. *)
Lemma default_pending_threshold : Int64.mul 100 1000000 = 100000000.
Proof. reflexivity. Qed.

Lemma default_rename_threshold : Int64.mul 1000 1000000 = 1000000000.
Proof. reflexivity. Qed.

Lemma afterWatch_times w n ev : times (afterWatch w n ev) = times n.
Proof. unfold afterWatch. simpl. by destruct (_ && _). Qed.

Lemma afterWatch_timesAt w n ev p : timesAt (afterWatch w n ev) p = timesAt n p.
Proof. unfold timesAt. by rewrite afterWatch_times. Qed.

Lemma afterWatch_pendingPeriod w n ev :
  pendingPeriod (afterWatch w n ev) = pendingPeriod n.
Proof. unfold afterWatch. simpl. by destruct (_ && _). Qed.

Lemma afterWatch_regard w n ev :
  regardRenameAsModPeriod (afterWatch w n ev) = regardRenameAsModPeriod n.
Proof. unfold afterWatch. simpl. by destruct (_ && _). Qed.

Lemma afterWatch_detectCreate w n ev :
  detectCreate (afterWatch w n ev) = detectCreate n.
Proof. unfold afterWatch. simpl. by destruct (_ && _). Qed.

(** One iteration on a received event, in terms of [shouldExecute]. *)
Lemma waitStep_event w clock n ev t :
  waitStep w clock n (OnEvents (Some ev)) t =
    let n1 := afterWatch w n ev in
    let path := Path.Clean (rawName ev) in
    let '(run, t1) := shouldExecute w clock n1 path (rawOp ev) t in
    if run then
      (setTimes n1 (<[path := clock t1]> (times n1)),
       [SendEvent {| Name := path; Time := clock t1 |}], S t1)
    else (n1, [], t1).
Proof.
  unfold waitStep, Clock.bind, Clock.ret, Clock.Now. simpl.
  destruct (shouldExecute _ _ _ _ _ t) as [[|] t1]; reflexivity.
Qed.

(** [shouldExecute] on a write, or on a create when creates are detected,
    of a regular file: the clock is not read, and the answer is the
    comparison of the elapsed time with the period. *)
Lemma shouldExecute_write_create w clock n path op t :
  op = Op.Write \/ (op = Op.Create /\ detectCreate n = true) ->
  IsFile w path = true ->
  shouldExecute w clock n path op t =
    (negb (Int64.sub (GetFileModifiedTime w path) (timesAt n path)
           <? Int64.mul (pendingPeriod n) 1000000), t).
Proof.
  intros Hop Hfile. unfold shouldExecute. rewrite Hfile.
  destruct Hop as [-> | [-> ->]]; simpl;
    by destruct (_ <? _).
Qed.

(** [shouldExecute] on a rename of a regular file: the clock is read
    once, and the answer is the comparison of the file's age with the
    rename period. *)
Lemma shouldExecute_rename w clock n path t :
  IsFile w path = true ->
  shouldExecute w clock n path Op.Rename t =
    (negb (Int64.sub (clock t) (GetFileModifiedTime w path)
           >? Int64.mul (regardRenameAsModPeriod n) 1000000), S t).
Proof.
  intros Hfile. unfold shouldExecute. rewrite Hfile. simpl.
  unfold Clock.bind, Clock.Now, Clock.ret.
  by destruct (_ >? _).
Qed.

(** [shouldExecute] answers no for anything that is not a regular file. *)
Lemma shouldExecute_not_file w clock n path op t :
  IsFile w path = false -> fst (shouldExecute w clock n path op t) = false.
Proof.
  intros Hfile. unfold shouldExecute. rewrite Hfile. simpl.
  by destruct (_ && _).
Qed.

Lemma setTimes_timesAt n m p : timesAt (setTimes n m) p = default 0 (m !! p).
Proof. reflexivity. Qed.

(** One iteration on a write, or a detected create, of a regular file. *)
Lemma waitStep_write_create w clock n ev t :
  rawOp ev = Op.Write \/ (rawOp ev = Op.Create /\ detectCreate n = true) ->
  IsFile w (Path.Clean (rawName ev)) = true ->
  waitStep w clock n (OnEvents (Some ev)) t =
    let n1 := afterWatch w n ev in
    let path := Path.Clean (rawName ev) in
    if Int64.sub (GetFileModifiedTime w path) (timesAt n path)
       <? Int64.mul (pendingPeriod n) 1000000
    then (n1, [], t)
    else (setTimes n1 (<[path := clock t]> (times n1)),
          [SendEvent {| Name := path; Time := clock t |}], S t).
Proof.
  intros Hop Hfile. rewrite waitStep_event. cbv zeta.
  rewrite shouldExecute_write_create;
    [ | by rewrite afterWatch_detectCreate | done ].
  rewrite afterWatch_timesAt, afterWatch_pendingPeriod.
  by destruct (_ <? _).
Qed.

(** One iteration on a rename of a regular file. *)
Lemma waitStep_rename w clock n ev t :
  rawOp ev = Op.Rename ->
  IsFile w (Path.Clean (rawName ev)) = true ->
  waitStep w clock n (OnEvents (Some ev)) t =
    let n1 := afterWatch w n ev in
    let path := Path.Clean (rawName ev) in
    if Int64.sub (clock t) (GetFileModifiedTime w path)
       >? Int64.mul (regardRenameAsModPeriod n) 1000000
    then (n1, [], S t)
    else (setTimes n1 (<[path := clock (S t)]> (times n1)),
          [SendEvent {| Name := path; Time := clock (S t) |}], S (S t)).
Proof.
  intros Hop Hfile. rewrite waitStep_event. cbv zeta. rewrite Hop.
  rewrite shouldExecute_rename by done.
  rewrite afterWatch_regard.
  by destruct (_ >? _).
Qed.

(** What [New] leaves in the notifier it returns. *)
Lemma New_defaults w patterns maxWatchDirs n ws :
  New w patterns maxWatchDirs = (Returned (Some n, None), ws) ->
  pendingPeriod n = 100 /\ regardRenameAsModPeriod n = 1000
  /\ detectCreate n = true /\ times n = ∅ /\ watcher n = ws.
Proof.
  unfold New. destruct (NewWatcher w); [ discriminate | ].
  destruct (_ >? _).
  - destruct (sliceTo _ _); discriminate.
  - intros [= <- <-]. done.
Qed.

End NotifyFacts.

(** ** The write filter of the notifier *)

Module WriteFilter.

Import Notify NotifyFacts.

(** C1. A write, or a create while creates are detected, of a regular
    file is rejected by the normalizer exactly when the file's
    modification time minus the time stored for the path is less than
    [pendingPeriod] milliseconds, in nanoseconds ([int64] arithmetic, and
    the same in exact integers when nothing overflows); a notifier made
    by [New] has the period 100 and detects creates; and when the file is
    written a second time less than the period after a first write that
    is accepted, the two raw events give exactly one logical event (the
    timestamps are non-negative [int64], and the first write is handled
    no earlier than the file's modification time). *)
Theorem write_create_rejected_iff_within_pending_period
    (w : World) (clock : nat -> Z) (n : Notify) (t : nat) (ev : RawEvent) :
  let path := Path.Clean (rawName ev) in
  let modifiedTime := GetFileModifiedTime w path in
  let period := pendingPeriod n * 1000000 in
  rawOp ev = Op.Write \/ (rawOp ev = Op.Create /\ detectCreate n = true) ->
  IsFile w path = true ->
  (sent (waitStep w clock n (OnEvents (Some ev)) t) = [] <->
     Int64.sub modifiedTime (timesAt n path)
     < Int64.mul (pendingPeriod n) 1000000)
  /\ (Int64.in_range (modifiedTime - timesAt n path) ->
      Int64.in_range period ->
      (sent (waitStep w clock n (OnEvents (Some ev)) t) = [] <->
         modifiedTime - timesAt n path < period))
  /\ (forall w0 patterns maxWatchDirs ws,
        New w0 patterns maxWatchDirs = (Returned (Some n, None), ws) ->
        pendingPeriod n = 100 /\ detectCreate n = true
        /\ Int64.mul (pendingPeriod n) 1000000 = 100000000)
  /\ (forall (w2 : World) (ev2 : RawEvent),
        let modifiedTime2 := GetFileModifiedTime w2 path in
        Path.Clean (rawName ev2) = path ->
        rawOp ev2 = Op.Write
          \/ (rawOp ev2 = Op.Create /\ detectCreate n = true) ->
        IsFile w2 path = true ->
        Int64.in_range period ->
        period <= Int64.sub modifiedTime (timesAt n path) ->
        0 <= modifiedTime <= modifiedTime2 ->
        modifiedTime2 <= Int64.max_signed ->
        modifiedTime <= clock t <= Int64.max_signed ->
        modifiedTime2 - modifiedTime < period ->
        sent (waitRun clock n
                [(w, OnEvents (Some ev)); (w2, OnEvents (Some ev2))] t)
        = [ {| Name := path; Time := clock t |} ]).
Proof.
  intros path modifiedTime period Hop Hfile.
  assert (Hstep : sent (waitStep w clock n (OnEvents (Some ev)) t) = [] <->
     Int64.sub modifiedTime (timesAt n path)
     < Int64.mul (pendingPeriod n) 1000000).
  { rewrite waitStep_write_create by done. cbv zeta.
    fold path modifiedTime.
    destruct (Z.ltb_spec (Int64.sub modifiedTime (timesAt n path))
                (Int64.mul (pendingPeriod n) 1000000)) as [Hlt | Hge].
    - split; [ done | reflexivity ].
    - split; [ discriminate | lia ]. }
  split; [ exact Hstep | ].
  split.
  { intros Hsub Hmul. rewrite Hstep.
    rewrite (Int64Facts.sub_exact _ _ Hsub).
    rewrite (Int64Facts.mul_exact _ _ Hmul). reflexivity. }
  split.
  { intros w0 patterns maxWatchDirs ws HNew.
    destruct (New_defaults _ _ _ _ _ HNew) as (Hp & _ & Hd & _).
    rewrite Hp. done. }
  intros w2 ev2 modifiedTime2 Hpath2 Hop2 Hfile2 Hperiod Hfirst Hm Hm2 Hclock
    Hwithin.
  assert (Hmul : Int64.mul (pendingPeriod n) 1000000 = period)
    by (apply Int64Facts.mul_exact; exact Hperiod).
  unfold waitRun, Clock.bind, Clock.ret.
  rewrite waitStep_write_create by done. cbv zeta.
  fold path modifiedTime. rewrite Hmul.
  destruct (Z.ltb_spec (Int64.sub modifiedTime (timesAt n path)) period)
    as [Hlt | _]; [ lia | ].
  cbn [fst snd].
  rewrite waitStep_write_create; cycle 1.
  { simpl. by rewrite afterWatch_detectCreate. }
  { by rewrite Hpath2. }
  cbv zeta. rewrite Hpath2. fold modifiedTime2.
  rewrite setTimes_timesAt, lookup_insert_eq. simpl default.
  replace (pendingPeriod (setTimes _ _)) with (pendingPeriod n)
    by (simpl; by rewrite afterWatch_pendingPeriod).
  rewrite Hmul.
  rewrite Int64Facts.sub_nonneg by lia.
  destruct (Z.ltb_spec (modifiedTime2 - clock t) period) as [_ | Hge];
    [ reflexivity | lia ].
Qed.

(** The theorem at work: [notes.txt] written at [epoch] and again 60 ms
    later, the first write seen 10 ms after it happened. *)
Lemma write_create_rejected_iff_within_pending_period_witness :
  (Notify.rawOp (Sample.rawWrite "notes.txt") = Op.Write
   \/ (Notify.rawOp (Sample.rawWrite "notes.txt") = Op.Create
       /\ detectCreate Sample.fresh = true))
  /\ IsFile (Sample.disk Sample.epoch) (Path.Clean "notes.txt") = true
  /\ sent (waitRun (Sample.clockFrom (Sample.epoch + Sample.ms 10))
             Sample.fresh
             [(Sample.disk Sample.epoch,
               OnEvents (Some (Sample.rawWrite "notes.txt")));
              (Sample.disk (Sample.epoch + Sample.ms 60),
               OnEvents (Some (Sample.rawWrite "notes.txt")))] 0%nat)
     = [ {| Name := "notes.txt"; Time := Sample.epoch + Sample.ms 10 |} ].
Proof.
  split; [ left; reflexivity | ].
  split; [ reflexivity | ].
  pose proof (write_create_rejected_iff_within_pending_period
                (Sample.disk Sample.epoch)
                (Sample.clockFrom (Sample.epoch + Sample.ms 10))
                Sample.fresh 0%nat (Sample.rawWrite "notes.txt")
                (or_introl eq_refl) eq_refl) as (_ & _ & _ & Hrun).
  apply (Hrun (Sample.disk (Sample.epoch + Sample.ms 60))
           (Sample.rawWrite "notes.txt")).
  - reflexivity.
  - left; reflexivity.
  - reflexivity.
  - vm_compute; split; discriminate.
  - vm_compute; discriminate.
  - vm_compute; split; discriminate.
  - vm_compute; discriminate.
  - vm_compute; split; discriminate.
  - vm_compute; reflexivity.
Defined.

End WriteFilter.

(** ** The rename filter of the notifier *)

Module RenameFilter.

Import Notify NotifyFacts.

(** C2. A rename of a regular file is rejected by the normalizer exactly
    when the current time minus the file's modification time exceeds
    [regardRenameAsModPeriod] milliseconds, in nanoseconds ([int64]
    arithmetic, and the same in exact integers when nothing overflows);
    a notifier made by [New] has the period 1000; a rename within the
    period gives exactly one logical event, a rename of an older file
    gives none. *)
Theorem rename_rejected_iff_older_than_rename_period
    (w : World) (clock : nat -> Z) (n : Notify) (t : nat) (ev : RawEvent) :
  let path := Path.Clean (rawName ev) in
  let modifiedTime := GetFileModifiedTime w path in
  let now := clock t in
  let period := regardRenameAsModPeriod n * 1000000 in
  rawOp ev = Op.Rename ->
  IsFile w path = true ->
  (sent (waitStep w clock n (OnEvents (Some ev)) t) = [] <->
     Int64.sub now modifiedTime
     > Int64.mul (regardRenameAsModPeriod n) 1000000)
  /\ (Int64.in_range (now - modifiedTime) -> Int64.in_range period ->
      (sent (waitStep w clock n (OnEvents (Some ev)) t) = [] <->
         now - modifiedTime > period))
  /\ (forall w0 patterns maxWatchDirs ws,
        New w0 patterns maxWatchDirs = (Returned (Some n, None), ws) ->
        regardRenameAsModPeriod n = 1000
        /\ Int64.mul (regardRenameAsModPeriod n) 1000000 = 1000000000)
  /\ (Int64.sub now modifiedTime
        <= Int64.mul (regardRenameAsModPeriod n) 1000000 ->
      sent (waitStep w clock n (OnEvents (Some ev)) t)
      = [ {| Name := path; Time := clock (S t) |} ])
  /\ (Int64.sub now modifiedTime
        > Int64.mul (regardRenameAsModPeriod n) 1000000 ->
      snd (fst (waitStep w clock n (OnEvents (Some ev)) t)) = []).
Proof.
  intros path modifiedTime now period Hop Hfile.
  rewrite waitStep_rename by done. cbv zeta.
  fold path modifiedTime now.
  rewrite Z.gtb_ltb.
  destruct (Z.ltb_spec (Int64.mul (regardRenameAsModPeriod n) 1000000)
              (Int64.sub now modifiedTime)) as [Hlt | Hge].
  - split; [ split; [ lia | reflexivity ] | ].
    split.
    { intros Hsub Hmul. rewrite Int64Facts.sub_exact in Hlt by done.
      rewrite Int64Facts.mul_exact in Hlt by done.
      split; [ fold period; lia | reflexivity ]. }
    split.
    { intros w0 patterns maxWatchDirs ws HNew.
      destruct (New_defaults _ _ _ _ _ HNew) as (_ & Hr & _).
      rewrite Hr. done. }
    split; [ lia | reflexivity ].
  - split; [ split; [ discriminate | lia ] | ].
    split.
    { intros Hsub Hmul. rewrite Int64Facts.sub_exact in Hge by done.
      rewrite Int64Facts.mul_exact in Hge by done.
      split; [ discriminate | fold period in Hge; lia ]. }
    split.
    { intros w0 patterns maxWatchDirs ws HNew.
      destruct (New_defaults _ _ _ _ _ HNew) as (_ & Hr & _).
      rewrite Hr. done. }
    split; [ reflexivity | lia ].
Qed.

(** The theorem at work: [notes.txt] renamed into place 10 ms after it
    was written. *)
Lemma rename_rejected_iff_older_than_rename_period_witness :
  Notify.rawOp (Sample.rawRename "./notes.txt") = Op.Rename
  /\ IsFile (Sample.disk Sample.epoch) (Path.Clean "./notes.txt") = true
  /\ sent (waitStep (Sample.disk Sample.epoch)
             (Sample.clockFrom (Sample.epoch + Sample.ms 10)) Sample.fresh
             (OnEvents (Some (Sample.rawRename "./notes.txt"))) 0%nat)
     = [ {| Name := "notes.txt";
            Time := Sample.epoch + Sample.ms 10 + 1000 |} ].
Proof.
  split; [ reflexivity | ].
  split; [ reflexivity | ].
  pose proof (rename_rejected_iff_older_than_rename_period
                (Sample.disk Sample.epoch)
                (Sample.clockFrom (Sample.epoch + Sample.ms 10))
                Sample.fresh 0%nat (Sample.rawRename "./notes.txt")
                eq_refl eq_refl) as (_ & _ & _ & Hone & _).
  apply Hone. vm_compute. discriminate.
Defined.

End RenameFilter.

(** ** Logical events are about regular files; the stored times *)

Module Normalizer.

Import Notify NotifyFacts.

Lemma eventsOf_app a b : eventsOf (a ++ b) = eventsOf a ++ eventsOf b.
Proof. unfold eventsOf. apply omap_app. Qed.

(** What one iteration sends and stores, whatever it received: nothing
    and no change of the stored times, or one event for a regular file,
    stamped with the reading of the clock made last and stored under the
    event's name. *)
Lemma waitStep_cases w clock n i t :
  let r := waitStep w clock n i t in
  (sent r = [] /\ times (stateOf r) = times n
     /\ (t <= ticksOf r)%nat)
  \/ (exists raw k,
        i = OnEvents (Some raw)
        /\ IsFile w (Path.Clean (rawName raw)) = true
        /\ (t <= k)%nat /\ ticksOf r = S k
        /\ snd (fst r)
           = [SendEvent {| Name := Path.Clean (rawName raw);
                           Time := clock k |}]
        /\ times (stateOf r)
           = <[Path.Clean (rawName raw) := clock k]> (times n)).
Proof.
  destruct i as [[raw | ] | [err | ]]; cbv zeta.
  - rewrite waitStep_event. cbv zeta.
    destruct (IsFile w (Path.Clean (rawName raw))) eqn:Hfile.
    + unfold shouldExecute. rewrite Hfile. cbn [negb].
      destruct (negb (rawOp raw =? Op.Write) && _ && _);
        [ left; unfold sent, stateOf, ticksOf; cbn;
          by rewrite afterWatch_times | ].
      destruct (((rawOp raw =? Op.Write) || _) && _);
        [ left; unfold sent, stateOf, ticksOf; cbn;
          by rewrite afterWatch_times | ].
      destruct (rawOp raw =? Op.Rename).
      * unfold Clock.bind, Clock.Now, Clock.ret.
        destruct (_ >? _).
        -- left. unfold sent, stateOf, ticksOf; cbn.
           rewrite afterWatch_times. split; [ done | split; [ done | lia ] ].
        -- right. exists raw, (S t). unfold stateOf, ticksOf; cbn.
           rewrite afterWatch_times.
           repeat split; try done; lia.
      * right. exists raw, t. unfold Clock.ret, stateOf, ticksOf; cbn.
        rewrite afterWatch_times. repeat split; try done; lia.
    + pose proof (shouldExecute_not_file w clock (afterWatch w n raw)
                    _ (rawOp raw) t Hfile) as Hno.
      destruct (shouldExecute _ _ _ _ _ t) as [run t1] eqn:Hrun.
      simpl in Hno. subst run. left.
      unfold sent, stateOf, ticksOf; cbn. rewrite afterWatch_times.
      split; [ done | split; [ done | ] ].
      revert Hrun. unfold shouldExecute. rewrite Hfile. cbn [negb].
      destruct (_ && _); unfold Clock.ret; intros [= <-]; lia.
  - left. unfold waitStep, Clock.ret, sent, stateOf, ticksOf. cbn.
    unfold afterWatch. cbn. repeat split; try done; lia.
  - left. unfold sent, stateOf, ticksOf. cbn. repeat split; try done; lia.
  - left. unfold sent, stateOf, ticksOf. cbn. repeat split; try done; lia.
Qed.

Lemma waitRun_cons clock n w i rest t :
  waitRun clock n ((w, i) :: rest) t =
    let r := waitStep w clock n i t in
    let r' := waitRun clock (stateOf r) rest (ticksOf r) in
    (stateOf r', snd (fst r) ++ snd (fst r'), ticksOf r').
Proof.
  cbn [waitRun]. unfold Clock.bind, Clock.ret, stateOf, ticksOf.
  destruct (waitStep w clock n i t) as [[n1 o1] t1]. cbn.
  destruct (waitRun clock n1 rest t1) as [[n2 o2] t2]. reflexivity.
Qed.

Lemma waitRun_app clock n inputs1 inputs2 t :
  waitRun clock n (inputs1 ++ inputs2) t =
    let r1 := waitRun clock n inputs1 t in
    let r2 := waitRun clock (stateOf r1) inputs2 (ticksOf r1) in
    (stateOf r2, snd (fst r1) ++ snd (fst r2), ticksOf r2).
Proof.
  revert n t. induction inputs1 as [ | [w i] rest IH]; intros n t.
  - cbv zeta. cbn. unfold Clock.ret, stateOf, ticksOf. cbn.
    by destruct (waitRun clock n inputs2 t) as [[n2 o2] t2].
  - rewrite <- app_comm_cons. rewrite !waitRun_cons. cbv zeta.
    rewrite IH. cbv zeta. unfold stateOf, ticksOf. cbn.
    by rewrite app_assoc.
Qed.

(** C8. Every logical event the normalizer sends comes from a received
    raw event whose cleaned path was a regular file when it was
    handled; a raw event whose path is not a regular file then (a
    directory, a deleted file, anything else) sends nothing. *)
Theorem logical_events_only_for_regular_files
    (clock : nat -> Z) (n : Notify) (inputs : list (World * input))
    (t : nat) :
  (forall e : Event,
      e ∈ sent (waitRun clock n inputs t) ->
      exists (w : World) (raw : RawEvent),
        (w, OnEvents (Some raw)) ∈ inputs
        /\ Name e = Path.Clean (rawName raw)
        /\ IsFile w (Name e) = true)
  /\ (forall (w : World) (raw : RawEvent),
        IsFile w (Path.Clean (rawName raw)) = false ->
        snd (fst (waitStep w clock n (OnEvents (Some raw)) t)) = []).
Proof.
  split.
  - revert n t. induction inputs as [ | [w i] rest IH]; intros n t e.
    + cbn. intros H. by apply elem_of_nil in H.
    + rewrite waitRun_cons. cbv zeta. unfold sent at 1. cbn [fst snd].
      rewrite eventsOf_app. intros [Hin | Hin]%elem_of_app.
      * destruct (waitStep_cases w clock n i t)
          as [(Hnone & _) | (raw & k & -> & Hfile & _ & _ & Houts & _)].
        -- unfold sent in Hnone. rewrite Hnone in Hin.
           by apply elem_of_nil in Hin.
        -- rewrite Houts in Hin. cbn in Hin.
           apply list_elem_of_singleton in Hin. subst e.
           exists w, raw. split; [ apply list_elem_of_here | done ].
      * destruct (IH _ _ _ Hin) as (w' & raw & Hmem & Hname & Hfile).
        exists w', raw. split; [ by apply list_elem_of_further | done ].
  - intros w raw Hfile.
    rewrite waitStep_event. cbv zeta.
    pose proof (shouldExecute_not_file w clock (afterWatch w n raw)
                  _ (rawOp raw) t Hfile) as Hno.
    destruct (shouldExecute _ _ _ _ _ t) as [run t1].
    simpl in Hno. by subst run.
Qed.

(** One iteration keeps every stored time, or replaces it by a later
    one, when the clock never goes back. *)
Lemma waitStep_times_grow w clock n i t :
  Clock.monotone clock -> timesBelow clock t n ->
  let r := waitStep w clock n i t in
  (t <= ticksOf r)%nat
  /\ timesBelow clock (ticksOf r) (stateOf r)
  /\ (forall p v, times n !! p = Some v ->
        exists v', times (stateOf r) !! p = Some v' /\ v <= v').
Proof.
  intros Hmono Hbelow. cbv zeta.
  destruct (waitStep_cases w clock n i t)
    as [(_ & Hsame & Hle)
       | (raw & k & _ & _ & Hle & Hticks & _ & Hstore)].
  - split; [ done | ]. split.
    + intros p v. rewrite Hsame. intros Hp.
      etrans; [ by apply (Hbelow p v) | by apply Hmono ].
    + intros p v Hp. exists v. by rewrite Hsame.
  - rewrite Hticks. split; [ lia | ]. split.
    + intros p v. rewrite Hstore.
      destruct (decide (Path.Clean (rawName raw) = p)) as [<- | Hne].
      * rewrite lookup_insert_eq. intros [= <-]. apply Hmono. lia.
      * rewrite lookup_insert_ne by done. intros Hp.
        etrans; [ by apply (Hbelow p v) | apply Hmono; lia ].
    + intros p v Hp. rewrite Hstore.
      destruct (decide (Path.Clean (rawName raw) = p)) as [<- | Hne].
      * rewrite lookup_insert_eq. eexists; split; [ done | ].
        etrans; [ by apply (Hbelow (Path.Clean (rawName raw)) v)
                | by apply Hmono ].
      * rewrite lookup_insert_ne by done. by exists v.
Qed.

Lemma waitRun_times_grow clock n inputs t :
  Clock.monotone clock -> timesBelow clock t n ->
  let r := waitRun clock n inputs t in
  (t <= ticksOf r)%nat
  /\ timesBelow clock (ticksOf r) (stateOf r)
  /\ (forall p v, times n !! p = Some v ->
        exists v', times (stateOf r) !! p = Some v' /\ v <= v').
Proof.
  intros Hmono. revert n t.
  induction inputs as [ | [w i] rest IH]; intros n t Hbelow; cbv zeta.
  - cbn. split; [ done | ]. split; [ done | ]. intros p v Hp. by exists v.
  - rewrite waitRun_cons. cbv zeta.
    destruct (waitStep_times_grow w clock n i t Hmono Hbelow)
      as (Hle1 & Hbelow1 & Hgrow1).
    destruct (IH _ _ Hbelow1) as (Hle2 & Hbelow2 & Hgrow2).
    unfold stateOf at 1 3, ticksOf at 1 2. cbn [fst snd].
    split; [ lia | ]. split; [ done | ].
    intros p v Hp. destruct (Hgrow1 p v Hp) as (v1 & Hp1 & Hv1).
    destruct (Hgrow2 p v1 Hp1) as (v2 & Hp2 & Hv2).
    exists v2. split; [ done | lia ].
Qed.

(** C9. An accepted raw event makes one iteration store the current
    time, the reading of the clock made on acceptance, under the path,
    by a single map update, and send one logical event whose [Time] is
    that stored value; an iteration that sends no event leaves the
    stored times as they were; and with a clock that never goes back,
    from stored times not in the future, the time stored for a path at
    one point of a run is at most the one stored at any later point. *)
Theorem stored_times_follow_accepted_events
    (clock : nat -> Z) (n : Notify) (t : nat) :
  (forall (w : World) (i : input) (e : Event),
      let r := waitStep w clock n i t in
      e ∈ sent r ->
      snd (fst r) = [SendEvent e]
      /\ times (stateOf r) = <[Name e := Time e]> (times n)
      /\ timesAt (stateOf r) (Name e) = Time e
      /\ (exists k : nat,
            (t <= k)%nat /\ ticksOf r = S k /\ Time e = clock k))
  /\ (forall (w : World) (i : input),
        let r := waitStep w clock n i t in
        sent r = [] -> times (stateOf r) = times n)
  /\ (Clock.monotone clock -> timesBelow clock t n ->
      forall (inputs1 inputs2 : list (World * input)),
        let r1 := waitRun clock n inputs1 t in
        let r2 := waitRun clock n (inputs1 ++ inputs2) t in
        forall (p : string) (v : Z),
          times (stateOf r1) !! p = Some v ->
          exists v' : Z, times (stateOf r2) !! p = Some v' /\ v <= v').
Proof.
  split; [ | split ].
  - intros w i e r He. subst r.
    destruct (waitStep_cases w clock n i t)
      as [(Hnone & _)
         | (raw & k & _ & _ & Hle & Hticks & Houts & Hstore)].
    + rewrite Hnone in He. by apply elem_of_nil in He.
    + unfold sent in He. rewrite Houts in He. cbn in He.
      apply list_elem_of_singleton in He. subst e. cbn [Name Time].
      split; [ done | ]. split; [ done | ]. split.
      * unfold timesAt. by rewrite Hstore, lookup_insert_eq.
      * by exists k.
  - intros w i r Hnone. subst r.
    destruct (waitStep_cases w clock n i t)
      as [(_ & Hsame & _) | (raw & k & _ & _ & _ & _ & Houts & _)].
    + done.
    + unfold sent in Hnone. by rewrite Houts in Hnone.
  - intros Hmono Hbelow inputs1 inputs2 r1 r2 p v Hp. subst r1 r2.
    rewrite waitRun_app. cbv zeta.
    destruct (waitRun_times_grow clock n inputs1 t Hmono Hbelow)
      as (_ & Hbelow1 & _).
    destruct (waitRun_times_grow clock _ inputs2 _ Hmono Hbelow1)
      as (_ & _ & Hgrow).
    unfold stateOf at 1. cbn [fst]. by apply Hgrow.
Qed.

(** The theorem at work: [notes.txt] is written, and a directory event
    arrives for [src]. *)
Lemma logical_events_only_for_regular_files_witness :
  exists (w : World) (raw : RawEvent),
    (w, OnEvents (Some raw))
      ∈ [(Sample.disk Sample.epoch,
          OnEvents (Some (Sample.rawWrite "src")));
         (Sample.disk Sample.epoch,
          OnEvents (Some (Sample.rawWrite "notes.txt")))]
    /\ "notes.txt" = Path.Clean (rawName raw)
    /\ IsFile w "notes.txt" = true.
Proof.
  apply (proj1 (logical_events_only_for_regular_files
                  (Sample.clockFrom Sample.epoch) Sample.fresh
                  [(Sample.disk Sample.epoch,
                    OnEvents (Some (Sample.rawWrite "src")));
                   (Sample.disk Sample.epoch,
                    OnEvents (Some (Sample.rawWrite "notes.txt")))]
                  0%nat)
               {| Name := "notes.txt"; Time := Sample.epoch |}).
  vm_compute. constructor.
Defined.

(** The theorem at work: [notes.txt] is written twice, 200 ms apart;
    the time stored after the first write is at most the one stored
    after the second. *)
Lemma stored_times_follow_accepted_events_witness :
  Clock.monotone (Sample.clockFrom Sample.epoch)
  /\ timesBelow (Sample.clockFrom Sample.epoch) 0 Sample.fresh
  /\ exists v' : Z,
       times (stateOf (waitRun (Sample.clockFrom Sample.epoch) Sample.fresh
                         ([(Sample.disk Sample.epoch,
                            OnEvents (Some (Sample.rawWrite "notes.txt")))]
                          ++ [(Sample.disk (Sample.epoch + Sample.ms 200),
                               OnEvents
                                 (Some (Sample.rawWrite "notes.txt")))])
                         0%nat))
         !! "notes.txt" = Some v'
       /\ Sample.epoch <= v'.
Proof.
  assert (Hmono : Clock.monotone (Sample.clockFrom Sample.epoch)).
  { intros i j Hij. unfold Sample.clockFrom. lia. }
  assert (Hbelow : timesBelow (Sample.clockFrom Sample.epoch) 0
                     Sample.fresh).
  { intros p v Hp. cbn in Hp. rewrite lookup_empty in Hp. discriminate. }
  split; [ exact Hmono | ]. split; [ exact Hbelow | ].
  apply (proj2 (proj2 (stored_times_follow_accepted_events
                         (Sample.clockFrom Sample.epoch) Sample.fresh
                         0%nat))
           Hmono Hbelow
           [(Sample.disk Sample.epoch,
             OnEvents (Some (Sample.rawWrite "notes.txt")))]
           [(Sample.disk (Sample.epoch + Sample.ms 200),
             OnEvents (Some (Sample.rawWrite "notes.txt")))]
           "notes.txt" Sample.epoch).
  vm_compute. reflexivity.
Defined.

End Normalizer.

(** ** The dispatcher *)

Module GazerFacts.

Import Gazer.

(** [event.Op|flag == 0] never holds: the disjunction contains the bits
    of [flag]. *)
Lemma op_or_flag_nonzero (op : Z) : (Z.lor op flag =? 0) = false.
Proof.
  apply Z.eqb_neq. intros H. apply Z.lor_eq_0_iff in H.
  destruct H as [_ H]. discriminate H.
Qed.

(** [matchAny] tries the patterns in order and stops at the first that
    matches: it is the disjunction of the glob matches. *)
Lemma matchAny_existsb w watchFiles s :
  matchAny w watchFiles s = existsb (fun f => GlobMatch w f s) watchFiles.
Proof.
  induction watchFiles as [ | f rest IH]; [ done | ].
  cbn. rewrite IH. by destruct (GlobMatch w f s).
Qed.

Lemma matchAny_first w watchFiles s :
  matchAny w watchFiles s = true <->
  exists before f after,
    watchFiles = before ++ f :: after
    /\ GlobMatch w f s = true
    /\ Forall (fun f' => GlobMatch w f' s = false) before.
Proof.
  induction watchFiles as [ | f rest IH]; cbn.
  - split; [ discriminate | ].
    intros (before & f & after & H & _). by destruct before.
  - destruct (GlobMatch w f s) eqn:Hf.
    + split; [ | done ]. intros _. exists [], f, rest. by repeat split.
    + rewrite IH. split.
      * intros (before & f' & after & -> & Hm & Hall).
        exists (f :: before), f', after. repeat split; [ done | ].
        by constructor.
      * intros (before & f' & after & Heq & Hm & Hall).
        destruct before as [ | b before]; cbn in Heq.
        -- injection Heq as -> ->. congruence.
        -- injection Heq as -> ->. exists before, f', after.
           repeat split; [ done | ]. by inversion Hall.
Qed.

Section Dispatch.

Variable Match : Command -> string -> bool.
Variable render : string -> string -> string.

(** One iteration on a receive, in terms of [passes]. *)
Lemma step_event w clock cfg timeout restart g l r t :
  step Match render w clock cfg timeout restart g l (OnEvents r) t =
    let event := default zeroEvent r in
    let commandString :=
      getAppropriateCommand Match render (Name event) cfg in
    let kills := match ongoingCommand l with
                 | Some c => [Kill c "Restart"]
                 | None => []
                 end in
    if passes w g l r then
      if String.eqb commandString "" then
        (incrCounter g, l,
         [DebugReceive (Name event); DebugCommandNotFound (Name event)],
         t)
      else
        (incrCounter g,
         {| lastExecutionTime := clock t;
            ongoingCommand :=
              if restart then Some (createCommand commandString)
              else None;
            returned := returned l |},
         [DebugReceive (Name event); NoticeCommand commandString]
           ++ kills
           ++ [if restart
               then GoExecute (createCommand commandString) timeout
               else Execute (createCommand commandString) timeout],
         S t)
    else (g, l, [DebugReceive (Name event)], t).
Proof.
  unfold step, passes. cbv zeta.
  destruct (bool_decide (is_Some r) && _); [ done | ].
  cbn [negb andb].
  destruct (matchAny w (patterns g) _); [ | done ].
  cbn [negb andb].
  destruct (_ <? ignorePeriod); [ done | ].
  cbn [negb].
  destruct (String.eqb _ ""); [ done | ].
  unfold Clock.bind, Clock.Now, Clock.ret.
  by destruct restart.
Qed.

(** The first test of the loop never ends an iteration. *)
Lemma passes_without_op_filter w g l r :
  passes w g l r =
    matchAny w (patterns g) (Name (default zeroEvent r))
    && negb (Int64.sub
               (GetFileModifiedTime w (Name (default zeroEvent r)))
               (lastExecutionTime l) <? ignorePeriod).
Proof.
  unfold passes. cbv zeta. rewrite op_or_flag_nonzero.
  by rewrite andb_false_r.
Qed.

End Dispatch.

End GazerFacts.

(** ** The filter on the operation *)

Module OperationFilter.

Import Gazer GazerFacts.

(** C3. The test on the operation, [ok && event.Op|flag == 0], is false
    for every operation, so it ignores nothing: an event of a create,
    which has neither the write bit nor the rename bit, for a file that
    matches a pattern is counted and its command is run. *)
Theorem create_event_passes_the_operation_filter :
  (forall op : Z, (Z.lor op flag =? 0) = false)
  /\ Z.land Op.Create flag = 0
  /\ let r := step Sample.matchExt Sample.render
                (Sample.disk Sample.epoch)
                (Sample.clockFrom (Sample.epoch + Sample.ms 5))
                Sample.config 0 false Sample.gazer initLocals
                (OnEvents (Some (Sample.event "notes.txt" Op.Create)))
                0%nat in
     Counter (gazerOf r) = Counter Sample.gazer + 1
     /\ started (actionsOf r) = ["echo notes.txt"].
Proof.
  split; [ exact op_or_flag_nonzero | ].
  split; [ reflexivity | ].
  vm_compute. split; reflexivity.
Qed.

Section Dispatch.

Variable Match : Command -> string -> bool.
Variable render : string -> string -> string.

(** The second half of the filter: an event whose name matches none of
    the patterns ends the iteration with nothing changed and nothing
    run. *)
Lemma unmatched_event_is_ignored w clock cfg timeout restart g l r t :
  existsb (fun f => GlobMatch w f (Name (default zeroEvent r)))
    (patterns g) = false ->
  step Match render w clock cfg timeout restart g l (OnEvents r) t
  = (g, l, [DebugReceive (Name (default zeroEvent r))], t).
Proof.
  intros Hnone. rewrite step_event. cbv zeta.
  rewrite passes_without_op_filter, matchAny_existsb, Hnone.
  reflexivity.
Qed.

End Dispatch.

End OperationFilter.

(** ** The execution counter *)

Module ExecutionCounter.

Import Gazer GazerFacts.

(** C4, as stated, fails: [src/main.go] matches a pattern and no rule
    of the table, no command is started, and the counter has grown. *)
Lemma command_not_found_increments_counter :
  let r := step Sample.matchExt Sample.render
             (Sample.disk Sample.epoch)
             (Sample.clockFrom (Sample.epoch + Sample.ms 5))
             Sample.txtOnly 0 false Sample.gazer initLocals
             (OnEvents (Some (Sample.event "src/main.go" Op.Write)))
             0%nat in
  getAppropriateCommand Sample.matchExt Sample.render "src/main.go"
    Sample.txtOnly = ""
  /\ started (actionsOf r) = []
  /\ Counter (gazerOf r) <> Counter Sample.gazer.
Proof. vm_compute. repeat split; discriminate. Qed.

Section Dispatch.

Variable Match : Command -> string -> bool.
Variable render : string -> string -> string.

(** C4, amended. The counter is incremented exactly once for every
    received event that gets past the pattern filter and the
    debounce, before the command is resolved and whether or not a
    rule matches; an event stopped by a filter, the interrupt and the
    end of a goroutine leave it unchanged. A command is started only
    in an iteration that incremented the counter. *)
Theorem counter_incremented_before_command_resolution
    (w : World) (clock : nat -> Z) (cfg : Config) (timeout : Z)
    (restart : bool) (g : Gazer) (l : locals) (t : nat) :
  (forall r : option Event,
      let res := step Match render w clock cfg timeout restart g l
                   (OnEvents r) t in
      let event := default zeroEvent r in
      let commandString :=
        getAppropriateCommand Match render (Name event) cfg in
      (passes w g l r = true ->
       Counter (gazerOf res) = Int64.uincr (Counter g))
      /\ (passes w g l r = false ->
          Counter (gazerOf res) = Counter g /\ started (actionsOf res) = [])
      /\ (passes w g l r = true -> commandString = "" ->
          Counter (gazerOf res) = Int64.uincr (Counter g)
          /\ started (actionsOf res) = []
          /\ actionsOf res = [DebugReceive (Name event);
                              DebugCommandNotFound (Name event)])
      /\ (passes w g l r = true -> commandString <> "" ->
          started (actionsOf res) = [commandString]))
  /\ (forall r : option Event,
        let event := default zeroEvent r in
        passes w g l r
        = matchAny w (patterns g) (Name event)
          && negb (Int64.sub (GetFileModifiedTime w (Name event))
                     (lastExecutionTime l) <? ignorePeriod))
  /\ (forall i : input,
        i = OnSigInt \/ i = GoroutineEnd ->
        let res := step Match render w clock cfg timeout restart g l
                     i t in
        Counter (gazerOf res) = Counter g /\ actionsOf res = [])
  /\ (0 <= Counter g < Int64.modulus - 1 ->
      Int64.uincr (Counter g) = Counter g + 1).
Proof.
  split; [ | split; [ intros r; apply passes_without_op_filter | split ] ].
  - intros r res event commandString. subst res.
    rewrite step_event. cbv zeta. fold event. fold commandString.
    destruct (passes w g l r).
    + destruct (String.eqb_spec commandString "") as [Hempty | Hne].
      * repeat split; try done.
      * repeat split; try done.
        intros _ _. unfold actionsOf, started. cbn [fst snd].
        rewrite !omap_app.
        destruct (ongoingCommand l); by destruct restart.
    + repeat split; done.
  - intros i [-> | ->]; cbv zeta; done.
  - apply Int64Facts.uincr_small.
Qed.

End Dispatch.

(** The theorem at work: the update of [notes.txt], whose rule renders
    [echo notes.txt]. *)
Lemma counter_incremented_before_command_resolution_witness :
  let r := step Sample.matchExt Sample.render
             (Sample.disk Sample.epoch)
             (Sample.clockFrom (Sample.epoch + Sample.ms 5))
             Sample.config 0 false Sample.gazer initLocals
             (OnEvents (Some (Sample.event "notes.txt" Op.Write)))
             0%nat in
  Counter (gazerOf r) = Int64.uincr (Counter Sample.gazer)
  /\ started (actionsOf r) = ["echo notes.txt"]
  /\ Int64.uincr (Counter Sample.gazer) = Counter Sample.gazer + 1.
Proof.
  pose proof (counter_incremented_before_command_resolution
                Sample.matchExt Sample.render
                (Sample.disk Sample.epoch)
                (Sample.clockFrom (Sample.epoch + Sample.ms 5))
                Sample.config 0 false Sample.gazer initLocals 0%nat)
    as (Hev & _ & _ & Hincr).
  destruct (Hev (Some (Sample.event "notes.txt" Op.Write)))
    as (Hcount & _ & _ & Hrun).
  split; [ apply Hcount; reflexivity | ].
  split; [ apply Hrun; [ reflexivity | discriminate ] | ].
  apply Hincr. vm_compute. split; [ discriminate | reflexivity ].
Defined.

End ExecutionCounter.

(** ** The debounce of the dispatcher *)

Module DispatchDebounce.

Import Gazer GazerFacts.

(** C6, as stated, fails: [notes.txt] is dispatched at [epoch + 5 ms];
    [src/main.go], another path, modified 3 ms after that dispatch, is
    suppressed, although alone it would have been dispatched. *)
Lemma dispatch_suppresses_another_path :
  let p := Sample.event "notes.txt" Op.Write in
  let q := Sample.event "src/main.go" Op.Write in
  let clock := Sample.clockFrom (Sample.epoch + Sample.ms 5) in
  let both := repeatRunAndWait Sample.matchExt Sample.render clock
                Sample.config 0 false Sample.gazer
                [(Sample.disk Sample.epoch, OnEvents (Some p));
                 (Sample.disk (Sample.epoch + Sample.ms 8),
                  OnEvents (Some q))] 0%nat in
  let alone := repeatRunAndWait Sample.matchExt Sample.render clock
                 Sample.config 0 false Sample.gazer
                 [(Sample.disk (Sample.epoch + Sample.ms 8),
                   OnEvents (Some q))] 0%nat in
  Name p <> Name q
  /\ started (actionsOf both) = ["echo notes.txt"]
  /\ started (actionsOf alone) = ["go build src/main.go"].
Proof. vm_compute. repeat split; discriminate. Qed.

Section Dispatch.

Variable Match : Command -> string -> bool.
Variable render : string -> string -> string.

(** C6, amended. The debounce state of the dispatcher is one
    timestamp, the local variable [lastExecutionTime], shared by all
    paths: an iteration that starts a command sets it to the current
    time, and after that every received event, for the same path or
    for another, whose file modification time minus that timestamp is
    less than the 10 ms [ignorePeriod] is ignored: nothing is
    counted, nothing is run, the timestamp stays. *)
Theorem dispatch_debounce_is_shared_by_all_paths
    (w : World) (clock : nat -> Z) (cfg : Config) (timeout : Z)
    (restart : bool) (g : Gazer) (l : locals) (t : nat)
    (r : option Event) :
  let res := step Match render w clock cfg timeout restart g l
               (OnEvents r) t in
  ignorePeriod = 10 * 1000000
  /\ (started (actionsOf res) <> [] ->
      lastExecutionTime (localsOf res) = clock t /\ snd res = S t)
  /\ (started (actionsOf res) = [] ->
      lastExecutionTime (localsOf res) = lastExecutionTime l)
  /\ (forall (w2 : World) (r2 : option Event),
        let name2 := Name (default zeroEvent r2) in
        Int64.sub (GetFileModifiedTime w2 name2)
          (lastExecutionTime (localsOf res)) < ignorePeriod ->
        step Match render w2 clock cfg timeout restart
          (gazerOf res) (localsOf res) (OnEvents r2) (snd res)
        = (gazerOf res, localsOf res, [DebugReceive name2], snd res)).
Proof.
  cbv zeta. split; [ reflexivity | ].
  split; [ | split ].
  - rewrite step_event. cbv zeta.
    destruct (passes w g l r); [ | done ].
    destruct (String.eqb _ ""); done.
  - rewrite step_event. cbv zeta.
    destruct (passes w g l r); [ | done ].
    destruct (String.eqb _ ""); [ done | ].
    unfold actionsOf, started. cbn [fst snd]. rewrite !omap_app.
    intros Hnil. apply app_eq_nil in Hnil as [_ Hnil].
    apply app_eq_nil in Hnil as [_ Hnil].
    by destruct restart.
  - intros w2 r2 Hwithin. rewrite (step_event _ _ w2). cbv zeta.
    rewrite passes_without_op_filter.
    apply Z.ltb_lt in Hwithin. rewrite Hwithin.
    by rewrite andb_false_r.
Qed.

End Dispatch.

(** The theorem at work: after the dispatch for [notes.txt], the event
    for [src/main.go] modified 3 ms later is ignored. *)
Lemma dispatch_debounce_is_shared_by_all_paths_witness :
  let clock := Sample.clockFrom (Sample.epoch + Sample.ms 5) in
  let res := step Sample.matchExt Sample.render
               (Sample.disk Sample.epoch) clock Sample.config 0 false
               Sample.gazer initLocals
               (OnEvents (Some (Sample.event "notes.txt" Op.Write)))
               0%nat in
  lastExecutionTime (localsOf res) = Sample.epoch + Sample.ms 5
  /\ step Sample.matchExt Sample.render
       (Sample.disk (Sample.epoch + Sample.ms 8)) clock Sample.config 0
       false (gazerOf res) (localsOf res)
       (OnEvents (Some (Sample.event "src/main.go" Op.Write))) (snd res)
     = (gazerOf res, localsOf res, [DebugReceive "src/main.go"], snd res).
Proof.
  cbv zeta.
  pose proof (dispatch_debounce_is_shared_by_all_paths
                Sample.matchExt Sample.render
                (Sample.disk Sample.epoch)
                (Sample.clockFrom (Sample.epoch + Sample.ms 5))
                Sample.config 0 false Sample.gazer initLocals 0%nat
                (Some (Sample.event "notes.txt" Op.Write)))
    as (_ & Hset & _ & Hnext).
  split.
  - apply Hset. vm_compute. discriminate.
  - apply (Hnext (Sample.disk (Sample.epoch + Sample.ms 8))
             (Some (Sample.event "src/main.go" Op.Write))).
    vm_compute. reflexivity.
Defined.

End DispatchDebounce.

(** ** Command resolution *)

Module CommandResolution.

Import Gazer.

Section Dispatch.

Variable Match : Command -> string -> bool.
Variable render : string -> string -> string.

(** C10. [getAppropriateCommand] skips a rule whose run-template is
    empty, or whose extension and regex are both empty, whatever its
    match predicate says of the path; it returns the rendered command
    of the first rule, among those not skipped, that matches, and the
    empty string when there is none. *)
Theorem command_of_first_usable_matching_rule
    (filePath : string) (commandConfigs : Config) :
  let skipped (c : Command) : bool :=
    String.eqb (Run c) ""
    || (String.eqb (Ext c) "" && String.eqb (Re c) "") in
  let accepts (c : Command) : bool :=
    negb (skipped c) && Match c filePath in
  (forall (c : Command) (rest : list Command),
      skipped c = true ->
      getAppropriateCommand Match render filePath
        {| Commands := c :: rest |}
      = getAppropriateCommand Match render filePath
          {| Commands := rest |})
  /\ ((exists (before : list Command) (c : Command)
              (after : list Command),
          Commands commandConfigs = before ++ c :: after
          /\ Forall (fun c' => accepts c' = false) before
          /\ skipped c = false /\ Match c filePath = true
          /\ getAppropriateCommand Match render filePath commandConfigs
             = render (Run c) filePath)
      \/ (Forall (fun c' => accepts c' = false) (Commands commandConfigs)
          /\ getAppropriateCommand Match render filePath commandConfigs
             = "")).
Proof.
  intros skipped accepts. split.
  - intros c rest Hskip. unfold getAppropriateCommand. cbn.
    unfold skipped in Hskip. by rewrite Hskip.
  - destruct commandConfigs as [commands].
    unfold getAppropriateCommand. cbn [Commands].
    induction commands as [ | c rest IH].
    + right. by split.
    + cbn [getAppropriateCommandIn]. fold (skipped c).
      destruct (skipped c) eqn:Hskip.
      * destruct IH as [(before & c' & after & -> & Hall & Hs & Hm & Hres)
                       | (Hall & Hres)].
        -- left. exists (c :: before), c', after.
           repeat split; try done.
           constructor; [ | done ]. unfold accepts. by rewrite Hskip.
        -- right. split; [ | done ].
           constructor; [ | done ]. unfold accepts. by rewrite Hskip.
      * destruct (Match c filePath) eqn:Hmatch.
        -- left. exists [], c, rest. by repeat split.
        -- destruct IH
             as [(before & c' & after & -> & Hall & Hs & Hm & Hres)
                | (Hall & Hres)].
           ++ left. exists (c :: before), c', after.
              repeat split; try done.
              constructor; [ | done ].
              unfold accepts. by rewrite Hskip, Hmatch.
           ++ right. split; [ | done ].
              constructor; [ | done ].
              unfold accepts. by rewrite Hskip, Hmatch.
Qed.

End Dispatch.

(** The theorem at work: the rule without a predicate is skipped
    although its match predicate accepts [notes.txt]. *)
Lemma command_of_first_usable_matching_rule_witness :
  Sample.matchExt {| Ext := ""; Re := ""; Run := "true" |} "notes.txt"
  = true
  /\ getAppropriateCommand Sample.matchExt Sample.render "notes.txt"
       {| Commands :=
            {| Ext := ""; Re := ""; Run := "true" |}
            :: Commands Sample.txtOnly |}
     = getAppropriateCommand Sample.matchExt Sample.render "notes.txt"
         Sample.txtOnly.
Proof.
  split; [ reflexivity | ].
  apply (proj1 (command_of_first_usable_matching_rule
                  Sample.matchExt Sample.render "notes.txt"
                  Sample.txtOnly)
           {| Ext := ""; Re := ""; Run := "true" |}
           (Commands Sample.txtOnly)).
  reflexivity.
Defined.

End CommandResolution.

(** ** The directory resolver *)

Module ResolverFacts.

Import Notify ResolverSpec.

Lemma append_cons (c : ascii) (a b : string) :
  (String c a ++ b)%string = String c (a ++ b)%string.
Proof. reflexivity. Qed.

Lemma append_empty_l (s : string) : ("" ++ s)%string = s.
Proof. reflexivity. Qed.

Lemma append_empty_r (s : string) : (s ++ "")%string = s.
Proof.
  induction s as [ | c s IH]; [ done | by rewrite append_cons, IH ].
Qed.

Lemma append_assoc (a b c : string) :
  ((a ++ b) ++ c)%string = (a ++ b ++ c)%string.
Proof.
  induction a as [ | x a IH]; [ done | by rewrite !append_cons, IH ].
Qed.

(** Trimming the separator that was just appended. *)
Lemma TrimSuffix_sep (s : string) :
  Fs.TrimSuffix (s ++ Path.Separator) = s.
Proof.
  unfold Fs.TrimSuffix.
  assert (H : Fs.TrimSuffixSep (s ++ Path.Separator) = Some s).
  { induction s as [ | c s IH]; [ done | ].
    rewrite append_cons. cbn [Fs.TrimSuffixSep]. by rewrite IH. }
  by rewrite H.
Qed.

Lemma literalEntries_acc entries acc :
  literalEntries entries acc
  = (acc ++ literalEntries entries "")%string.
Proof.
  revert acc. induction entries as [ | e rest IH]; intros acc.
  - cbn [literalEntries]. by rewrite append_empty_r.
  - cbn [literalEntries].
    destruct (Path.IndexAny_found e Path.globChars).
    + by rewrite append_empty_r.
    + rewrite (IH (acc ++ e ++ Path.Separator)%string).
      rewrite (IH ("" ++ e ++ Path.Separator)%string).
      rewrite append_empty_l. by rewrite !append_assoc.
Qed.

(** What the loop of [findRealDirectory] builds: the leading literal
    entries joined by the separator, with one more separator at the end
    when there is at least one entry. *)
Lemma literalEntries_join entries :
  literalEntries entries ""
  = match leadingLiteral entries with
    | [] => ""
    | l => (Path.Join l Path.Separator ++ Path.Separator)%string
    end.
Proof.
  induction entries as [ | e rest IH]; [ done | ].
  cbn [literalEntries leadingLiteral].
  destruct (Path.IndexAny_found e Path.globChars); [ done | ].
  rewrite literalEntries_acc, IH. rewrite append_empty_l.
  destruct (leadingLiteral rest) as [ | e' l'].
  - cbn [Path.Join]. by rewrite append_empty_r.
  - cbn [Path.Join]. by rewrite !append_assoc.
Qed.

Lemma findRealDirectory_prefix w path :
  findRealDirectory w path
  = if IsDir w (literalPrefix path) then literalPrefix path else "".
Proof.
  unfold findRealDirectory, literalPrefix, Path.ToSlash.
  rewrite literalEntries_join.
  destruct (leadingLiteral (Path.Split (Path.Clean path))) as [ | e l].
  - reflexivity.
  - by rewrite TrimSuffix_sep.
Qed.

(** Adding strings one by one appends the new ones, in order. *)
Lemma addAll_distinct (targets dirs : list string) :
  addAll targets dirs = targets ++ distinct targets dirs.
Proof.
  unfold addAll, Uniq.t. revert targets.
  induction dirs as [ | d rest IH]; intros targets.
  - cbn. by rewrite app_nil_r.
  - cbn [fold_left distinct]. unfold Uniq.Add at 2, Uniq.t.
    destruct (bool_decide (d ∈ targets)).
    + apply IH.
    + rewrite IH. by rewrite <- app_assoc.
Qed.

(** The first step of the loop of [findDirs] adds the prefix source. *)
Lemma realDir_source w (targets : list string) patternDir :
  (if 0 <? Z.of_nat (String.length (findRealDirectory w patternDir))
   then Uniq.Add targets (findRealDirectory w patternDir) else targets)
  = addAll targets (prefixSource w (literalPrefix patternDir)).
Proof.
  rewrite findRealDirectory_prefix. unfold prefixSource.
  destruct (IsDir w (literalPrefix patternDir)); [ | done ].
  cbn [andb].
  destruct (String.eqb_spec (literalPrefix patternDir) "") as [-> | Hne].
  - done.
  - cbn [negb addAll fold_left].
    destruct (literalPrefix patternDir); [ done | ]. done.
Qed.

(** [findDirs] is the resolver over the sources of the patterns. *)
Lemma findDirsFrom_resolveFrom w maxWatchDirs patterns targets :
  findDirsFrom w maxWatchDirs patterns targets
  = resolveFrom maxWatchDirs (concat (map (sources w) patterns)) targets.
Proof.
  revert targets. induction patterns as [ | pattern rest IH];
    intros targets; [ done | ].
  cbn [findDirsFrom map concat sources app resolveFrom]. cbv zeta.
  rewrite realDir_source. unfold Uniq.Len, Uniq.List.
  rewrite <- !addAll_distinct.
  destruct (_ >? maxWatchDirs); [ done | ].
  destruct (_ >? maxWatchDirs); [ done | ].
  destruct (_ >? maxWatchDirs); [ done | ].
  apply IH.
Qed.

Lemma distinct_app (seen l1 l2 : list string) :
  distinct seen (l1 ++ l2)
  = distinct seen l1 ++ distinct (seen ++ distinct seen l1) l2.
Proof.
  revert seen. induction l1 as [ | x l1 IH]; intros seen.
  - cbn. by rewrite app_nil_r.
  - cbn [app distinct]. destruct (bool_decide (x ∈ seen)).
    + apply IH.
    + rewrite IH. cbn [app]. by rewrite <- app_assoc.
Qed.

Lemma distinct_elem_of (seen l : list string) (x : string) :
  x ∈ seen ++ distinct seen l <-> x ∈ seen \/ x ∈ l.
Proof.
  revert seen. induction l as [ | y l IH]; intros seen.
  - cbn. rewrite app_nil_r. split; [ by left | ].
    intros [H | H]; [ done | by apply elem_of_nil in H ].
  - cbn [distinct]. destruct (bool_decide_reflect (y ∈ seen)) as [Hy | Hy].
    + rewrite IH, elem_of_cons. split.
      * intros [H | H]; [ by left | right; by right ].
      * intros [H | [-> | H]]; [ by left | by left | by right ].
    + rewrite (cons_middle y seen), app_assoc, IH.
      rewrite elem_of_app, list_elem_of_singleton, elem_of_cons. tauto.
Qed.

Lemma distinct_NoDup (seen l : list string) :
  NoDup seen -> NoDup (seen ++ distinct seen l).
Proof.
  revert seen. induction l as [ | y l IH]; intros seen Hseen.
  - cbn. by rewrite app_nil_r.
  - cbn [distinct]. destruct (bool_decide_reflect (y ∈ seen)) as [Hy | Hy].
    + by apply IH.
    + rewrite (cons_middle y seen), app_assoc. apply IH.
      apply NoDup_app. split; [ done | ]. split.
      * intros x Hx ->%list_elem_of_singleton. done.
      * apply NoDup_singleton.
Qed.

(** The resolver stops after the first source that takes the set over
    the limit, and has then gathered the sources up to that one. *)
Lemma resolveFrom_take maxDirs (srcs : list (list string))
    (acc : list string) :
  exists k : nat,
    (k <= length srcs)%nat
    /\ resolveFrom maxDirs srcs acc
       = acc ++ distinct acc (concat (take k srcs))
    /\ (forall j : nat,
          (1 <= j < k)%nat ->
          Z.of_nat (length (acc ++ distinct acc (concat (take j srcs))))
          <= maxDirs)
    /\ ((k < length srcs)%nat ->
        (1 <= k)%nat
        /\ Z.of_nat (length (resolveFrom maxDirs srcs acc)) > maxDirs).
Proof.
  revert acc. induction srcs as [ | src rest IH]; intros acc.
  - exists 0%nat. cbn. rewrite app_nil_r.
    repeat split; try done; lia.
  - cbn [resolveFrom]. cbv zeta.
    destruct (Z.gtb_spec (Z.of_nat (length (acc ++ distinct acc src)))
                maxDirs) as [Hover | Hunder].
    + exists 1%nat. cbn [take concat length]. rewrite take_0. cbn [concat].
      rewrite app_nil_r. split; [ lia | ]. split; [ done | ].
      split; [ lia | ]. intros _. split; lia.
    + destruct (IH (acc ++ distinct acc src))
        as (k & Hk & Hres & Hbefore & Hstop).
      exists (S k). cbn [take concat length].
      split; [ lia | ]. split.
      * rewrite Hres, distinct_app. by rewrite <- app_assoc.
      * split.
        -- intros [ | j] Hj; [ lia | ]. cbn [take concat].
           rewrite distinct_app, app_assoc.
           destruct j as [ | j].
           ++ rewrite take_0. cbn [concat distinct].
              rewrite app_nil_r. lia.
           ++ apply Hbefore. lia.
        -- intros Hlt. destruct Hstop as [Hk1 Hover]; [ lia | ].
           split; [ lia | done ].
Qed.

(** C7, as stated, fails: for the pattern [src], an existing directory,
    the code starts from the prefix of the pattern's parent, [.], where
    the specification starts from the prefix of the pattern, [src]. The
    results differ in content under a limit of 0 and in order under a
    limit of 10. *)
Lemma findDirs_starts_from_the_parent :
  findDirs (Sample.disk Sample.epoch) ["src"] 0 = ["."]
  /\ resolveAsStated (Sample.disk Sample.epoch) ["src"] 0 = ["src"]
  /\ findDirs (Sample.disk Sample.epoch) ["src"] 10 = ["."; "src"]
  /\ resolveAsStated (Sample.disk Sample.epoch) ["src"] 10 = ["src"; "."]
  /\ findDirs (Sample.disk Sample.epoch) ["src"] 0
     <> resolveAsStated (Sample.disk Sample.epoch) ["src"] 0.
Proof. vm_compute. repeat split; discriminate. Qed.

(** C7, amended. For every pattern list and limit, [findDirs] handles
    each pattern by three sources in this order: the literal non-glob
    leading prefix of the pattern's parent directory, when it is
    non-empty and an existing directory; the directories of the
    expansion of the pattern; the directories of the expansion of the
    pattern's parent. The result holds each directory once, in the
    order of first occurrence, and the size of the set is compared with
    the limit after each source: the result is what the sources up to
    the first one that takes the set over the limit have gathered, or
    all of them when none does. *)
Theorem findDirs_gathers_sources_up_to_the_limit
    (w : World) (patterns : list string) (maxWatchDirs : Z) :
  let srcs := concat (map (sources w) patterns) in
  let result := findDirs w patterns maxWatchDirs in
  (forall path : string,
      findRealDirectory w path
      = if IsDir w (literalPrefix path) then literalPrefix path else "")
  /\ result = resolveDirs w patterns maxWatchDirs
  /\ NoDup result
  /\ exists k : nat,
       (k <= length srcs)%nat
       /\ result = distinct [] (concat (take k srcs))
       /\ (forall d : string, d ∈ result <-> d ∈ concat (take k srcs))
       /\ (forall j : nat,
             (1 <= j < k)%nat ->
             Z.of_nat (length (distinct [] (concat (take j srcs))))
             <= maxWatchDirs)
       /\ ((k < length srcs)%nat ->
           (1 <= k)%nat /\ Z.of_nat (length result) > maxWatchDirs).
Proof.
  intros srcs result.
  assert (Hres : result = resolveDirs w patterns maxWatchDirs).
  { subst result. unfold findDirs, resolveDirs, resolve, Uniq.New.
    apply findDirsFrom_resolveFrom. }
  split; [ apply findRealDirectory_prefix | ].
  split; [ exact Hres | ].
  destruct (resolveFrom_take maxWatchDirs srcs [])
    as (k & Hk & Htake & Hbefore & Hstop).
  fold (resolve maxWatchDirs srcs) in Htake, Hstop.
  fold srcs in Hres. unfold resolveDirs in Hres. fold srcs in Hres.
  rewrite <- Hres in Htake, Hstop. cbn [app] in Htake.
  split.
  { rewrite Htake. apply (distinct_NoDup [] _), NoDup_nil_2. }
  exists k. split; [ done | ]. split; [ done | ]. split.
  { intros d. rewrite Htake.
    rewrite <- (app_nil_l (distinct [] _)), distinct_elem_of.
    split; [ intros [H | H]; [ by apply elem_of_nil in H | done ]
           | by right ]. }
  split; [ | done ].
  intros j Hj. by apply (Hbefore j).
Qed.

(** The theorem at work: two patterns that need two directories, under a
    limit of one. *)
Lemma findDirs_gathers_sources_up_to_the_limit_witness :
  findDirs (Sample.disk Sample.epoch) ["*.txt"; "src/*.go"] 1
  = resolveDirs (Sample.disk Sample.epoch) ["*.txt"; "src/*.go"] 1
  /\ NoDup (findDirs (Sample.disk Sample.epoch) ["*.txt"; "src/*.go"] 1).
Proof.
  pose proof (findDirs_gathers_sources_up_to_the_limit
                (Sample.disk Sample.epoch) ["*.txt"; "src/*.go"] 1)
    as (_ & Hres & Hnodup & _).
  split; [ exact Hres | exact Hnodup ].
Defined.

End ResolverFacts.

(** ** Construction *)

Module Construction.

Import Notify.

(** C5, as stated, fails in the constructor of the dispatcher: with a
    limit of one directory the notifier is refused for two patterns and
    [notify.New] returns nil and the error, but [gazer.New] drops that
    error and returns a dispatcher whose notifier is nil. It also fails
    for a negative limit, where [notify.New] panics on the slice it
    logs instead of returning. *)
Lemma gazer_New_drops_the_error :
  let w := Sample.disk Sample.epoch in
  fst (New w ["*.txt"; "src/*.go"] 1)
  = Returned (None, Some (mkError "too many watchDirs"))
  /\ Gazer.New (fun ps => fst (New w ps 1)) ["*.txt"; "src/*.go"]
     = Returned {| Gazer.patterns := ["*.txt"; "src/*.go"];
                   Gazer.notify := None; Gazer.isClosed := false;
                   Gazer.counter := 0 |}
  /\ fst (New w [] (-1)) = Panicked "slice bounds out of range".
Proof. vm_compute. repeat split; reflexivity. Qed.

(** C5, amended. For every pattern list and every limit that is not
    negative, when [notify.New] fails, because the watch source cannot
    be created or because more directories are resolved than the limit,
    it returns the error with a nil notifier and has put no directory
    under watch; whenever it returns an error the notifier is nil, and
    whenever it returns a notifier there is no error. [gazer.New], its
    caller, does not pass the error on: it returns a dispatcher holding
    whatever notifier it got, nil after a failure. *)
Theorem notify_New_failure_returns_nil_and_error
    (w : World) (patterns : list string) (maxWatchDirs : Z) :
  0 <= maxWatchDirs ->
  let res := New w patterns maxWatchDirs in
  (forall err : error,
      NewWatcher w = Some err -> res = (Returned (None, Some err), ∅))
  /\ (NewWatcher w = None ->
      Z.of_nat (length (findDirs w patterns maxWatchDirs)) > maxWatchDirs ->
      res = (Returned (None, Some (mkError "too many watchDirs")), ∅))
  /\ (exists (n : option Notify) (err : option error),
        fst res = Returned (n, err)
        /\ (err <> None -> n = None /\ snd res = ∅)
        /\ (n = None <-> err <> None)
        /\ (err <> None <->
            NewWatcher w <> None
            \/ Z.of_nat (length (findDirs w patterns maxWatchDirs))
               > maxWatchDirs))
  /\ (forall rawPatterns : list string,
        exists (n : option Notify) (err : option error),
          fst (New w (map Path.Clean rawPatterns) maxWatchDirs)
          = Returned (n, err)
          /\ Gazer.New (fun ps => fst (New w ps maxWatchDirs)) rawPatterns
             = Returned {| Gazer.patterns := map Path.Clean rawPatterns;
                           Gazer.notify := n; Gazer.isClosed := false;
                           Gazer.counter := 0 |}).
Proof.
  intros Hmax res.
  assert (Hslice : forall ps,
             Z.of_nat (length (findDirs w ps maxWatchDirs)) > maxWatchDirs ->
             exists l, sliceTo (findDirs w ps maxWatchDirs) maxWatchDirs
                       = Returned l).
  { intros ps Hover. unfold sliceTo.
    destruct (Z.ltb_spec maxWatchDirs 0) as [Hneg | _]; [ lia | ].
    destruct (Z.ltb_spec (Z.of_nat (length (findDirs w ps maxWatchDirs)))
                maxWatchDirs) as [Hshort | _]; [ lia | ].
    cbn [orb]. by eexists. }
  assert (Hcases : forall ps,
             (exists err, NewWatcher w = Some err
                /\ New w ps maxWatchDirs = (Returned (None, Some err), ∅))
             \/ (NewWatcher w = None
                 /\ Z.of_nat (length (findDirs w ps maxWatchDirs))
                    > maxWatchDirs
                 /\ New w ps maxWatchDirs
                    = (Returned (None,
                                 Some (mkError "too many watchDirs")), ∅))
             \/ (NewWatcher w = None
                 /\ Z.of_nat (length (findDirs w ps maxWatchDirs))
                    <= maxWatchDirs
                 /\ exists n ws, New w ps maxWatchDirs
                                 = (Returned (Some n, None), ws))).
  { intros ps. unfold New. cbv zeta.
    destruct (NewWatcher w) as [err | ]; [ left; by exists err | right ].
    destruct (Z.gtb_spec (Z.of_nat (length (findDirs w ps maxWatchDirs)))
                maxWatchDirs) as [Hover | Hunder].
    - left. destruct (Hslice ps) as [l ->]; [ lia | ].
      split; [ done | ]. split; [ lia | reflexivity ].
    - right. split; [ done | ]. split; [ lia | ].
      eexists _, _. reflexivity. }
  split; [ | split; [ | split ] ].
  - intros err Herr. subst res.
    destruct (Hcases patterns) as [(e & He & ->) | [(Hw & _) | (Hw & _)]];
      congruence.
  - intros Hw Hover. subst res.
    destruct (Hcases patterns)
      as [(e & He & _) | [(_ & _ & ->) | (_ & Hunder & _)]];
      [ congruence | done | lia ].
  - subst res.
    destruct (Hcases patterns)
      as [(e & He & ->) | [(Hw & Hover & ->) | (Hw & Hunder & n & ws & ->)]].
    + exists None, (Some e). cbn [fst snd]. repeat split; try done.
      intros _. left. congruence.
    + exists None, (Some (mkError "too many watchDirs")). cbn [fst snd].
      repeat split; try done. intros _. by right.
    + exists (Some n), None. cbn [fst snd].
      split; [ done | ]. split; [ done | ]. split; [ split; done | ].
      split; [ done | ]. intros [H | H]; [ congruence | lia ].
  - intros rawPatterns. unfold Gazer.New.
    destruct (Hcases (map Path.Clean rawPatterns))
      as [(e & _ & ->) | [(_ & _ & ->) | (_ & _ & n & ws & ->)]];
      cbn [fst]; by eexists _, _.
Qed.

(** The theorem at work: two patterns that need two directories, under
    a limit of one. *)
Lemma notify_New_failure_returns_nil_and_error_witness :
  0 <= 1
  /\ New (Sample.disk Sample.epoch) ["*.txt"; "src/*.go"] 1
     = (Returned (None, Some (mkError "too many watchDirs")), ∅)
  /\ New (Sample.brokenDisk Sample.epoch) ["*.txt"; "src/*.go"] 1
     = (Returned (None, Some (mkError "too many open files")), ∅).
Proof.
  assert (H : 0 <= 1) by lia.
  split; [ exact H | ]. split.
  - apply (proj1 (proj2 (notify_New_failure_returns_nil_and_error
                           (Sample.disk Sample.epoch)
                           ["*.txt"; "src/*.go"] 1 H))).
    + reflexivity.
    + vm_compute. reflexivity.
  - apply (proj1 (notify_New_failure_returns_nil_and_error
                    (Sample.brokenDisk Sample.epoch)
                    ["*.txt"; "src/*.go"] 1 H)).
    reflexivity.
Defined.

End Construction.

(** * The rest of the notifier *)

Module NormalizerRun.

Import Notify NotifyFacts Normalizer.


(** One iteration on anything but an event of an open channel. *)
Lemma waitStep_not_event w clock n i t :
  rawOf i = None ->
  waitStep w clock n i t
  = (n, match errorOf i with Some err => [SendError err] | None => [] end, t).
Proof.
  destruct i as [[raw | ] | [err | ]]; intros Hraw; try discriminate;
    reflexivity.
Qed.

(** One iteration on an event of an open channel: the notifier is the one
    after the watch step, with one more stored time when an event is
    sent; only events are sent. *)
Lemma waitStep_on_event w clock n raw t :
  let r := waitStep w clock n (OnEvents (Some raw)) t in
  (stateOf r = afterWatch w n raw /\ snd (fst r) = [])
  \/ (exists now : Z,
        stateOf r
        = setTimes (afterWatch w n raw)
            (<[Path.Clean (rawName raw) := now]> (times n))
        /\ snd (fst r)
           = [SendEvent {| Name := Path.Clean (rawName raw);
                           Time := now |}]).
Proof.
  cbv zeta. rewrite waitStep_event. cbv zeta.
  destruct (shouldExecute _ _ _ _ _ t) as [[ | ] t1].
  - right. exists (clock t1). unfold stateOf. cbn [fst snd].
    by rewrite afterWatch_times.
  - left. by unfold stateOf.
Qed.

Lemma afterWatch_watcher w n raw :
  watcher (afterWatch w n raw)
  = if (rawOp raw =? Op.Create) && IsDir w (Path.Clean (rawName raw))
    then watcherAdded w (watcher n) (Path.Clean (rawName raw))
    else watcher n.
Proof. unfold afterWatch. cbv zeta. by destruct (_ && _). Qed.

Lemma afterWatch_isClosed w n raw :
  isClosed (afterWatch w n raw) = isClosed n.
Proof. unfold afterWatch. cbv zeta. by destruct (_ && _). Qed.

Lemma eventsOf_nil : eventsOf [] = [].
Proof. reflexivity. Qed.

Lemma eventsOf_event e : eventsOf [SendEvent e] = [e].
Proof. reflexivity. Qed.

Lemma eventsOf_errors (err : option error) :
  eventsOf (match err with Some e => [SendError e] | None => [] end) = [].
Proof. by destruct err. Qed.

Lemma stateOf_waitRun_cons clock n w i rest t :
  stateOf (waitRun clock n ((w, i) :: rest) t)
  = stateOf (waitRun clock (stateOf (waitStep w clock n i t)) rest
               (ticksOf (waitStep w clock n i t))).
Proof. by rewrite waitRun_cons. Qed.

Lemma outputs_waitRun_cons clock n w i rest t :
  snd (fst (waitRun clock n ((w, i) :: rest) t))
  = snd (fst (waitStep w clock n i t))
    ++ snd (fst (waitRun clock (stateOf (waitStep w clock n i t)) rest
                   (ticksOf (waitStep w clock n i t)))).
Proof. by rewrite waitRun_cons. Qed.

(** X1. The watch set only grows while [wait] runs: every directory
    watched before is watched after, and a directory is added only for a
    raw create event whose cleaned path was a directory then and that
    the watch source accepted. The loop changes no setting of the
    notifier. *)
Theorem watch_set_only_grows
    (clock : nat -> Z) (n : Notify) (inputs : list (World * input))
    (t : nat) :
  let n' := stateOf (waitRun clock n inputs t) in
  watcher n ⊆ watcher n'
  /\ (forall d : string,
        d ∈ watcher n' ->
        d ∈ watcher n
        \/ exists (w : World) (raw : RawEvent),
             (w, OnEvents (Some raw)) ∈ inputs
             /\ d = Path.Clean (rawName raw)
             /\ rawOp raw = Op.Create
             /\ IsDir w d = true
             /\ watcherAdd w d = None)
  /\ pendingPeriod n' = pendingPeriod n
  /\ regardRenameAsModPeriod n' = regardRenameAsModPeriod n
  /\ detectCreate n' = detectCreate n
  /\ isClosed n' = isClosed n.
Proof.
  revert n t. induction inputs as [ | [w i] rest IH]; intros n t.
  - cbn. repeat split; try done. intros d Hd. by left.
  - cbv zeta. rewrite stateOf_waitRun_cons.
    specialize (IH (stateOf (waitStep w clock n i t))
                  (ticksOf (waitStep w clock n i t))).
    cbv zeta in IH.
    destruct IH as (Hsub & Hnew & Hp & Hr & Hd & Hc).
    set (n1 := stateOf (waitStep w clock n i t)) in *.
    assert (Hstep :
      (watcher n1 = watcher n
       \/ exists raw, i = OnEvents (Some raw)
            /\ rawOp raw = Op.Create
            /\ IsDir w (Path.Clean (rawName raw)) = true
            /\ watcherAdd w (Path.Clean (rawName raw)) = None
            /\ watcher n1 = {[ Path.Clean (rawName raw) ]} ∪ watcher n)
      /\ pendingPeriod n1 = pendingPeriod n
      /\ regardRenameAsModPeriod n1 = regardRenameAsModPeriod n
      /\ detectCreate n1 = detectCreate n
      /\ isClosed n1 = isClosed n).
    { subst n1. destruct (rawOf i) as [raw | ] eqn:Hraw.
      - destruct i as [[raw' | ] | ]; try discriminate.
        injection Hraw as ->.
        assert (Hst : exists m, stateOf (waitStep w clock n
                                   (OnEvents (Some raw)) t)
                                = setTimes (afterWatch w n raw) m).
        { destruct (waitStep_on_event w clock n raw t)
            as [(-> & _) | (now & -> & _)].
          - exists (times (afterWatch w n raw)).
            by destruct (afterWatch w n raw).
          - by eexists. }
        destruct Hst as [m ->]. cbn [setTimes watcher pendingPeriod
          regardRenameAsModPeriod detectCreate isClosed].
        rewrite afterWatch_pendingPeriod, afterWatch_regard,
          afterWatch_detectCreate, afterWatch_isClosed, afterWatch_watcher.
        split; [ | done ].
        destruct (Z.eqb_spec (rawOp raw) Op.Create) as [Hop | Hop];
          [ | by left ].
        destruct (IsDir w (Path.Clean (rawName raw))) eqn:Hdir;
          [ | by left ].
        cbn [andb]. unfold watcherAdded.
        destruct (watcherAdd w (Path.Clean (rawName raw))) eqn:Hadd;
          [ by left | ].
        right. exists raw. done.
      - rewrite waitStep_not_event by done. unfold stateOf. cbn [fst].
        split; [ by left | done ]. }
    destruct Hstep as (Hw & Hp1 & Hr1 & Hd1 & Hc1).
    split; [ | split ].
    + destruct Hw as [Hw | (raw & _ & _ & _ & _ & Hw)].
      * by rewrite <- Hw.
      * rewrite Hw in Hsub. set_solver.
    + intros d Hd'. destruct (Hnew d Hd') as [Hin | (w' & raw & Hmem & Hrest)].
      * destruct Hw as [Hw | (raw & -> & Hop & Hdir & Hadd & Hw)].
        -- left. by rewrite <- Hw.
        -- rewrite Hw in Hin. apply elem_of_union in Hin as [Hin | Hin].
           ++ apply elem_of_singleton in Hin. subst d. right.
              exists w, raw. split; [ apply list_elem_of_here | done ].
           ++ by left.
      * right. exists w', raw. split; [ by apply list_elem_of_further | done ].
    + repeat split; congruence.
Qed.


(** X3. The names of the logical events sent in a run are, in the same
    order, cleaned names of raw events received: the loop drops events,
    it never invents or reorders them. *)
Theorem logical_events_keep_the_order_received
    (clock : nat -> Z) (n : Notify) (inputs : list (World * input))
    (t : nat) :
  sublist (map Name (sent (waitRun clock n inputs t)))
    (omap (fun wi => (fun raw => Path.Clean (rawName raw)) <$> rawOf (snd wi))
       inputs)
  /\ (length (sent (waitRun clock n inputs t)) <= length inputs)%nat.
Proof.
  revert n t. induction inputs as [ | [w i] rest IH]; intros n t.
  - split; [ constructor | done ].
  - unfold sent. rewrite outputs_waitRun_cons, eventsOf_app.
    destruct (IH (stateOf (waitStep w clock n i t))
                (ticksOf (waitStep w clock n i t))) as [IHsub IHlen].
    unfold sent in IHsub, IHlen.
    rewrite map_app, length_app. cbn [omap list_omap snd length].
    destruct (rawOf i) as [raw | ] eqn:Hraw.
    + destruct i as [[raw' | ] | ]; try discriminate.
      injection Hraw as ->. cbn [fmap option_fmap option_map].
      destruct (waitStep_on_event w clock n raw t)
        as [(_ & ->) | (now & _ & ->)].
      * rewrite eventsOf_nil. cbn [map app length].
        split; [ by apply sublist_cons | lia ].
      * rewrite eventsOf_event. cbn [map app length Name].
        split; [ by apply sublist_skip | lia ].
    + cbn [fmap option_fmap option_map].
      rewrite waitStep_not_event in * by done.
      unfold stateOf, ticksOf in *. cbn [fst snd] in *.
      rewrite eventsOf_errors. cbn [map app length].
      split; [ done | lia ].
Qed.

(** X4. After a run the stored times are the ones before it, overwritten
    by the logical events sent, in order: each event stores its [Time]
    under its [Name], nothing else is stored and nothing is removed. *)
Theorem stored_times_are_the_events_sent
    (clock : nat -> Z) (n : Notify) (inputs : list (World * input))
    (t : nat) :
  let r := waitRun clock n inputs t in
  times (stateOf r)
  = fold_left (fun m e => <[Name e := Time e]> m) (sent r) (times n)
  /\ dom (times (stateOf r))
     = dom (times n) ∪ list_to_set (map Name (sent r)).
Proof.
  cbv zeta.
  assert (Hfold :
    times (stateOf (waitRun clock n inputs t))
    = fold_left (fun m e => <[Name e := Time e]> m)
        (sent (waitRun clock n inputs t)) (times n)).
  { revert n t. induction inputs as [ | [w i] rest IH]; intros n t;
      [ done | ].
    rewrite stateOf_waitRun_cons, IH. unfold sent.
    rewrite outputs_waitRun_cons, eventsOf_app, fold_left_app. f_equal.
    destruct (rawOf i) as [raw | ] eqn:Hraw.
    - destruct i as [[raw' | ] | ]; try discriminate.
      injection Hraw as ->.
      destruct (waitStep_on_event w clock n raw t)
        as [(-> & ->) | (now & -> & ->)].
      + rewrite eventsOf_nil. apply afterWatch_times.
      + rewrite eventsOf_event. reflexivity.
    - rewrite waitStep_not_event by done. unfold stateOf. cbn [fst snd].
      by rewrite eventsOf_errors. }
  split; [ exact Hfold | ].
  rewrite Hfold. clear Hfold. generalize (times n) as m.
  induction (sent (waitRun clock n inputs t)) as [ | e es IH]; intros m.
  - cbn. set_solver.
  - cbn [fold_left map list_to_set]. rewrite IH, dom_insert_L. set_solver.
Qed.

End NormalizerRun.

(** ** Operations, settings and closing *)

Module NotifierOperations.

Import Notify NotifyFacts.

(** X5. A raw event whose operation is not exactly write, not exactly
    rename, and not exactly create while creates are detected, is
    rejected whatever the file is: nothing is sent, no time is stored and
    the clock is not read. An operation with several bits set, such as
    write together with chmod, is among them. *)
Theorem inapplicable_operations_are_rejected
    (w : World) (clock : nat -> Z) (n : Notify) (raw : RawEvent) (t : nat) :
  rawOp raw <> Op.Write ->
  rawOp raw <> Op.Rename ->
  detectCreate n = false \/ rawOp raw <> Op.Create ->
  waitStep w clock n (OnEvents (Some raw)) t = (afterWatch w n raw, [], t)
  /\ times (afterWatch w n raw) = times n.
Proof.
  intros Hw Hr Hc. split; [ | apply afterWatch_times ].
  rewrite waitStep_event. cbv zeta. unfold shouldExecute.
  rewrite afterWatch_detectCreate.
  apply Z.eqb_neq in Hw, Hr. rewrite Hw, Hr. cbn [negb andb].
  destruct Hc as [-> | Hc].
  - reflexivity.
  - apply Z.eqb_neq in Hc. rewrite Hc, andb_false_r. reflexivity.
Qed.

(** The theorem at work: a write reported together with a chmod. *)
Lemma inapplicable_operations_are_rejected_witness :
  waitStep (Sample.disk Sample.epoch) (Sample.clockFrom Sample.epoch)
    Sample.fresh
    (OnEvents (Some {| rawName := "notes.txt";
                       rawOp := Z.lor Op.Write Op.Chmod |})) 0%nat
  = (Sample.fresh, [], 0%nat).
Proof.
  apply (inapplicable_operations_are_rejected
           (Sample.disk Sample.epoch) (Sample.clockFrom Sample.epoch)
           Sample.fresh
           {| rawName := "notes.txt"; rawOp := Z.lor Op.Write Op.Chmod |}
           0%nat).
  - discriminate.
  - discriminate.
  - right. discriminate.
Defined.


(** X7. [PendingPeriod] changes the period and nothing else; from then
    on a write of a regular file is rejected exactly when its
    modification time minus the stored time is less than the new period
    in nanoseconds, so that a period of zero or less lets every write
    through whose file is not older than the stored time; what the loop
    sends for a rename does not depend on the period. *)
Theorem PendingPeriod_sets_the_write_window
    (w : World) (clock : nat -> Z) (n : Notify) (p : Z) (raw : RawEvent)
    (t : nat) :
  let path := Path.Clean (rawName raw) in
  let elapsed := Int64.sub (GetFileModifiedTime w path) (timesAt n path) in
  let n' := PendingPeriod n p in
  IsFile w path = true ->
  (times n' = times n /\ watcher n' = watcher n
   /\ isClosed n' = isClosed n
   /\ regardRenameAsModPeriod n' = regardRenameAsModPeriod n
   /\ detectCreate n' = detectCreate n /\ pendingPeriod n' = p)
  /\ (rawOp raw = Op.Write
        \/ (rawOp raw = Op.Create /\ detectCreate n = true) ->
      (sent (waitStep w clock n' (OnEvents (Some raw)) t) = [] <->
         elapsed < Int64.mul p 1000000)
      /\ (p <= 0 -> Int64.in_range (p * 1000000) -> 0 <= elapsed ->
          sent (waitStep w clock n' (OnEvents (Some raw)) t)
          = [ {| Name := path; Time := clock t |} ]))
  /\ (rawOp raw = Op.Rename ->
      snd (fst (waitStep w clock n' (OnEvents (Some raw)) t))
      = snd (fst (waitStep w clock n (OnEvents (Some raw)) t))).
Proof.
  intros path elapsed n' Hfile.
  split; [ done | ]. split.
  - intros Hop.
    assert (Hstep := waitStep_write_create w clock n' raw t Hop Hfile).
    cbv zeta in Hstep. fold path in Hstep.
    change (timesAt n' path) with (timesAt n path) in Hstep.
    change (pendingPeriod n') with p in Hstep. fold elapsed in Hstep.
    rewrite Hstep.
    destruct (Z.ltb_spec elapsed (Int64.mul p 1000000)) as [Hlt | Hge].
    + split; [ done | ]. intros Hp Hrange Hel.
      rewrite Int64Facts.mul_exact in Hlt by done. lia.
    + split; [ split; [ discriminate | lia ] | ]. done.
  - intros Hop.
    rewrite !waitStep_rename by done. cbv zeta.
    change (regardRenameAsModPeriod n') with (regardRenameAsModPeriod n).
    by destruct (_ >? _).
Qed.

(** The theorem at work: with the period set to zero, a second write
    of [notes.txt] 1 ms after the first goes through. *)
Lemma PendingPeriod_sets_the_write_window_witness :
  IsFile (Sample.disk (Sample.epoch + Sample.ms 1)) (Path.Clean "notes.txt")
  = true
  /\ sent (waitStep (Sample.disk (Sample.epoch + Sample.ms 1))
             (Sample.clockFrom (Sample.epoch + Sample.ms 2))
             (PendingPeriod
                (setTimes Sample.fresh {[ "notes.txt" := Sample.epoch ]}) 0)
             (OnEvents (Some (Sample.rawWrite "notes.txt"))) 0%nat)
     = [ {| Name := "notes.txt"; Time := Sample.epoch + Sample.ms 2 |} ].
Proof.
  split; [ reflexivity | ].
  pose proof (PendingPeriod_sets_the_write_window
                (Sample.disk (Sample.epoch + Sample.ms 1))
                (Sample.clockFrom (Sample.epoch + Sample.ms 2))
                (setTimes Sample.fresh {[ "notes.txt" := Sample.epoch ]})
                0 (Sample.rawWrite "notes.txt") 0%nat eq_refl)
    as (_ & Hwrite & _).
  destruct (Hwrite (or_introl eq_refl)) as [_ Hzero].
  apply Hzero.
  - lia.
  - vm_compute. split; discriminate.
  - vm_compute. discriminate.
Defined.

End NotifierOperations.

(** ** The resolver and the constructor, further *)

Module ResolverMore.

Import Notify ResolverSpec ResolverFacts.

Lemma IndexAny_found_app (a b chars : string) :
  Path.IndexAny_found (a ++ b)%string chars
  = Path.IndexAny_found a chars || Path.IndexAny_found b chars.
Proof.
  induction a as [ | c a IH]; [ done | ].
  rewrite append_cons. cbn [Path.IndexAny_found].
  by rewrite IH, orb_assoc.
Qed.

Lemma leadingLiteral_noGlob entries : Forall noGlob (leadingLiteral entries).
Proof.
  induction entries as [ | e rest IH]; [ constructor | ].
  cbn [leadingLiteral].
  destruct (Path.IndexAny_found e Path.globChars) eqn:He;
    [ constructor | by constructor ].
Qed.

Lemma leadingLiteral_all entries :
  Forall noGlob entries -> leadingLiteral entries = entries.
Proof.
  induction 1 as [ | e rest He _ IH]; [ done | ].
  cbn [leadingLiteral]. unfold noGlob in He. by rewrite He, IH.
Qed.

Lemma Join_noGlob entries :
  Forall noGlob entries -> noGlob (Path.Join entries Path.Separator).
Proof.
  induction 1 as [ | e rest He Hrest IH]; [ done | ].
  destruct rest as [ | e' rest']; [ done | ].
  change (Path.Join (e :: e' :: rest') Path.Separator)
    with (e ++ Path.Separator ++ Path.Join (e' :: rest') Path.Separator)%string.
  unfold noGlob in *. rewrite !IndexAny_found_app, He, IH. reflexivity.
Qed.

Lemma Split_nonempty s : Path.Split s <> [].
Proof.
  destruct s as [ | c r]; [ done | ]. cbn [Path.Split].
  destruct (Ascii.eqb c Path.sepChar); [ done | ].
  by destruct (Path.Split r).
Qed.

(** Splitting at the separator and joining again gives the string back. *)
Lemma Join_Split s : Path.Join (Path.Split s) Path.Separator = s.
Proof.
  induction s as [ | c r IH]; [ done | ]. cbn [Path.Split].
  pose proof (Split_nonempty r) as Hne.
  destruct (Path.Split r) as [ | h tl] eqn:Hsplit; [ done | ].
  destruct (Ascii.eqb_spec c Path.sepChar) as [-> | Hc].
  - change (Path.Join ("" :: h :: tl) Path.Separator)
      with ("" ++ Path.Separator ++ Path.Join (h :: tl) Path.Separator)%string.
    by rewrite IH.
  - destruct tl as [ | h' tl'].
    + cbn [Path.Join] in *. by rewrite IH.
    + change (Path.Join (String c h :: h' :: tl') Path.Separator)
        with (String c (h ++ Path.Separator
                        ++ Path.Join (h' :: tl') Path.Separator))%string.
      by rewrite <- IH.
Qed.

Lemma Split_noGlob s : noGlob s -> Forall noGlob (Path.Split s).
Proof.
  unfold noGlob. induction s as [ | c r IH]; intros Hs.
  - by repeat constructor.
  - cbn [Path.IndexAny_found] in Hs. apply orb_false_iff in Hs as [Hc Hr].
    specialize (IH Hr). cbn [Path.Split].
    destruct (Ascii.eqb c Path.sepChar).
    + by constructor.
    + destruct (Path.Split r) as [ | h tl].
      * repeat constructor. cbn [Path.IndexAny_found]. by rewrite Hc.
      * inversion IH as [ | ? ? Hh Htl]; subst. constructor; [ | done ].
        cbn [Path.IndexAny_found]. by rewrite Hc, Hh.
Qed.

(** X8. What [findRealDirectory] returns is the empty string or a
    directory that exists; it is the literal leading part of the cleaned
    path and holds none of the glob characters. *)
Theorem findRealDirectory_is_an_existing_literal_directory
    (w : World) (path : string) :
  findRealDirectory w path = ""
  \/ (findRealDirectory w path = literalPrefix path
      /\ IsDir w (findRealDirectory w path) = true
      /\ Path.IndexAny_found (findRealDirectory w path) Path.globChars
         = false).
Proof.
  rewrite findRealDirectory_prefix.
  destruct (IsDir w (literalPrefix path)) eqn:Hdir; [ right | by left ].
  split; [ done | ]. split; [ done | ].
  apply Join_noGlob, leadingLiteral_noGlob.
Qed.

(** X9. For a path whose cleaned form has no glob character,
    [findRealDirectory] tests that cleaned path itself: it returns it
    when it is a directory, and the empty string otherwise. *)
Theorem findRealDirectory_of_a_literal_path (w : World) (path : string) :
  Path.IndexAny_found (Path.Clean path) Path.globChars = false ->
  findRealDirectory w path
  = if IsDir w (Path.Clean path) then Path.Clean path else "".
Proof.
  intros Hlit. rewrite findRealDirectory_prefix. unfold literalPrefix.
  rewrite leadingLiteral_all by (by apply Split_noGlob).
  by rewrite Join_Split.
Qed.

(** The theorem at work: the parent directory [./src/]. *)
Lemma findRealDirectory_of_a_literal_path_witness :
  Path.IndexAny_found (Path.Clean "./src/") Path.globChars = false
  /\ findRealDirectory (Sample.disk Sample.epoch) "./src/" = "src".
Proof.
  split; [ reflexivity | ].
  rewrite (findRealDirectory_of_a_literal_path (Sample.disk Sample.epoch)
             "./src/" eq_refl).
  reflexivity.
Defined.

Lemma distinct_length_app (seen l1 l2 : list string) :
  (length (distinct seen l1) <= length (distinct seen (l1 ++ l2)))%nat.
Proof. rewrite distinct_app, length_app. lia. Qed.

(** X10. When the directories of all the sources of all the patterns,
    each counted once, are no more than the limit, [findDirs] returns all
    of them, in the order of first occurrence; and [findDirs] returns no
    more than the limit only in that case. *)
Theorem findDirs_is_complete_under_the_limit
    (w : World) (patterns : list string) (maxWatchDirs : Z) :
  let all := distinct [] (concat (concat (map (sources w) patterns))) in
  (Z.of_nat (length all) <= maxWatchDirs ->
   findDirs w patterns maxWatchDirs = all)
  /\ (Z.of_nat (length (findDirs w patterns maxWatchDirs)) <= maxWatchDirs ->
      findDirs w patterns maxWatchDirs = all).
Proof.
  intros all. unfold findDirs, Uniq.New.
  rewrite findDirsFrom_resolveFrom.
  set (srcs := concat (map (sources w) patterns)) in *.
  destruct (resolveFrom_take maxWatchDirs srcs [])
    as (k & Hk & Htake & _ & Hstop).
  cbn [app] in Htake.
  assert (Hall : (k < length srcs)%nat \/ resolveFrom maxWatchDirs srcs [] = all).
  { destruct (decide (k < length srcs)%nat) as [Hlt | Hge]; [ by left | ].
    right. rewrite Htake, take_ge by lia. done. }
  assert (Hle : (length (resolveFrom maxWatchDirs srcs []) <= length all)%nat).
  { rewrite Htake. subst all.
    rewrite <- (take_drop k srcs) at 2. rewrite concat_app.
    apply distinct_length_app. }
  split; intros Hfit.
  - destruct Hall as [Hlt | Heq]; [ | done ].
    destruct (Hstop Hlt) as [_ Hover]. lia.
  - destruct Hall as [Hlt | Heq]; [ | done ].
    destruct (Hstop Hlt) as [_ Hover]. lia.
Qed.

(** The theorem at work: two patterns, two directories, a limit of 2. *)
Lemma findDirs_is_complete_under_the_limit_witness :
  findDirs (Sample.disk Sample.epoch) ["*.txt"; "src/*.go"] 2
  = ["."; "src"].
Proof.
  rewrite (proj1 (findDirs_is_complete_under_the_limit
                    (Sample.disk Sample.epoch) ["*.txt"; "src/*.go"] 2)).
  - reflexivity.
  - vm_compute. discriminate.
Defined.

(** X11. With a negative limit [New] never returns once the watch source
    is created: the resolved set, even empty, is over the limit, and the
    slice taken of it for the log message is out of range. *)
Theorem New_panics_on_a_negative_limit
    (w : World) (patterns : list string) (maxWatchDirs : Z) :
  maxWatchDirs < 0 ->
  NewWatcher w = None ->
  New w patterns maxWatchDirs = (Panicked "slice bounds out of range", ∅).
Proof.
  intros Hneg Hwatcher. unfold New. rewrite Hwatcher. cbv zeta.
  destruct (Z.gtb_spec (Z.of_nat (length (findDirs w patterns maxWatchDirs)))
              maxWatchDirs) as [_ | Hle]; [ | lia ].
  unfold sliceTo. destruct (Z.ltb_spec maxWatchDirs 0); [ done | lia ].
Qed.

(** The theorem at work. *)
Lemma New_panics_on_a_negative_limit_witness :
  New (Sample.disk Sample.epoch) ["*.txt"] (-1)
  = (Panicked "slice bounds out of range", ∅).
Proof.
  apply New_panics_on_a_negative_limit; [ lia | reflexivity ].
Defined.

Lemma watcherAdded_fold w (dirs : list string) (ws : gset string)
    (d : string) :
  d ∈ fold_left (watcherAdded w) dirs ws
  <-> d ∈ ws \/ (d ∈ dirs /\ watcherAdd w d = None).
Proof.
  revert ws. induction dirs as [ | x dirs IH]; intros ws.
  - cbn. split; [ by left | ]. intros [H | [H _]]; [ done | ].
    by apply elem_of_nil in H.
  - cbn [fold_left]. rewrite IH. unfold watcherAdded.
    destruct (watcherAdd w x) as [err | ] eqn:Hadd.
    + rewrite elem_of_cons. split.
      * intros [H | [H1 H2]]; [ by left | right; split; [ by right | done ] ].
      * intros [H | [[-> | H1] H2]];
          [ by left | congruence | right; by split ].
    + rewrite elem_of_union, elem_of_singleton, elem_of_cons. split.
      * intros [[-> | H] | [H1 H2]];
          [ right; split; [ by left | done ] | by left
          | right; split; [ by right | done ] ].
      * intros [H | [[-> | H1] H2]];
          [ left; by right | left; by left | right; by split ].
Qed.

(** X12. When the watch source is created and the resolved directories
    are within the limit, [New] returns a notifier and no error: it is
    open, has no stored time and the default settings, and it watches
    exactly the resolved directories that the watch source accepted; a
    directory it refused is skipped and does not fail the
    construction. *)
Theorem New_watches_the_resolved_directories
    (w : World) (patterns : list string) (maxWatchDirs : Z) :
  NewWatcher w = None ->
  Z.of_nat (length (findDirs w patterns maxWatchDirs)) <= maxWatchDirs ->
  exists n : Notify,
    New w patterns maxWatchDirs = (Returned (Some n, None), watcher n)
    /\ (forall d : string,
          d ∈ watcher n <->
          d ∈ findDirs w patterns maxWatchDirs /\ watcherAdd w d = None)
    /\ isClosed n = false /\ times n = ∅
    /\ pendingPeriod n = 100 /\ regardRenameAsModPeriod n = 1000
    /\ detectCreate n = true.
Proof.
  intros Hwatcher Hfit. unfold New. rewrite Hwatcher. cbv zeta.
  destruct (Z.gtb_spec (Z.of_nat (length (findDirs w patterns maxWatchDirs)))
              maxWatchDirs) as [Hover | _]; [ lia | ].
  exists {| watcher := fold_left (watcherAdded w)
                         (findDirs w patterns maxWatchDirs) ∅;
            isClosed := false; times := ∅; pendingPeriod := 100;
            regardRenameAsModPeriod := 1000; detectCreate := true |}.
  split; [ reflexivity | ].
  cbn [watcher isClosed times pendingPeriod regardRenameAsModPeriod
         detectCreate].
  split; [ | done ].
  intros d. rewrite watcherAdded_fold. split.
  - intros [H | H]; [ by apply elem_of_empty in H | done ].
  - intros H. by right.
Qed.

(** The theorem at work: the two directories of the sample disk. *)
Lemma New_watches_the_resolved_directories_witness :
  exists n : Notify,
    New (Sample.disk Sample.epoch) ["*.txt"; "src/*.go"] 2
    = (Returned (Some n, None), watcher n)
    /\ ("src" ∈ watcher n <->
        "src" ∈ findDirs (Sample.disk Sample.epoch) ["*.txt"; "src/*.go"] 2
        /\ watcherAdd (Sample.disk Sample.epoch) "src" = None).
Proof.
  destruct (New_watches_the_resolved_directories
              (Sample.disk Sample.epoch) ["*.txt"; "src/*.go"] 2)
    as (n & Hnew & Hwatch & _).
  - reflexivity.
  - vm_compute. discriminate.
  - exists n. split; [ exact Hnew | apply Hwatch ].
Defined.

End ResolverMore.

(** * The rest of the dispatcher *)

Module DispatcherRun.

Import Gazer GazerFacts.

Lemma started_app a b : started (a ++ b) = started a ++ started b.
Proof. unfold started. apply omap_app. Qed.

Lemma killed_app a b : killed (a ++ b) = killed a ++ killed b.
Proof. unfold killed. apply omap_app. Qed.

Lemma spawned_app a b : spawned (a ++ b) = spawned a ++ spawned b.
Proof. unfold spawned. apply omap_app. Qed.

Lemma notFound_app a b : notFound (a ++ b) = notFound a ++ notFound b.
Proof. unfold notFound. apply omap_app. Qed.

(** The actions of an iteration that starts a command. *)
Lemma killed_dispatch name s (cs : list Cmd) (last : action) :
  (forall c reason, last <> Kill c reason) ->
  killed ([DebugReceive name; NoticeCommand s]
            ++ map (fun c => Kill c "Restart") cs ++ [last]) = cs.
Proof.
  intros Hlast. unfold killed. cbn [app omap list_omap].
  induction cs as [ | c cs IH].
  - destruct last; try done. by destruct (Hlast cmd reason).
  - cbn [map app omap list_omap]. by rewrite IH.
Qed.

Lemma spawned_dispatch name s (cs : list Cmd) (last : action) :
  spawned ([DebugReceive name; NoticeCommand s]
             ++ map (fun c => Kill c "Restart") cs ++ [last])
  = spawned [last].
Proof.
  unfold spawned. cbn [app omap list_omap].
  induction cs as [ | c cs IH]; [ done | ].
  cbn [map app omap list_omap]. exact IH.
Qed.

Lemma started_dispatch name s (cs : list Cmd) (last : action) :
  started ([DebugReceive name; NoticeCommand s]
             ++ map (fun c => Kill c "Restart") cs ++ [last])
  = started [last].
Proof.
  unfold started. cbn [app omap list_omap].
  induction cs as [ | c cs IH]; [ done | ].
  cbn [map app omap list_omap]. exact IH.
Qed.

Lemma notFound_dispatch name s (cs : list Cmd) (last : action) :
  (forall n, last <> DebugCommandNotFound n) ->
  notFound ([DebugReceive name; NoticeCommand s]
              ++ map (fun c => Kill c "Restart") cs ++ [last]) = [].
Proof.
  intros Hlast. unfold notFound. cbn [app omap list_omap].
  induction cs as [ | c cs IH].
  - destruct last; try done. by destruct (Hlast name0).
  - cbn [map app omap list_omap]. exact IH.
Qed.

Lemma started_last (restart : bool) (c : Cmd) (timeout : Z) :
  started [if restart then GoExecute c timeout else Execute c timeout]
  = [commandLine c].
Proof. by destruct restart. Qed.

Section Dispatch.

Variable Match : Command -> string -> bool.
Variable render : string -> string -> string.

Lemma loop_cons clock cfg timeout restart g l w i rest t :
  loop Match render clock cfg timeout restart g l ((w, i) :: rest) t =
    if returned l then (g, l, [], t)
    else
      let r := step Match render w clock cfg timeout restart g l i t in
      let r' := loop Match render clock cfg timeout restart
                  (gazerOf r) (localsOf r) rest (snd r) in
      (gazerOf r', localsOf r', actionsOf r ++ actionsOf r', snd r').
Proof.
  cbn [loop]. destruct (returned l); [ done | ].
  unfold Clock.bind, Clock.ret, gazerOf, localsOf, actionsOf.
  destruct (step _ _ _ _ _ _ _ _ _ _ t) as [[[g1 l1] a1] t1]. cbn [fst snd].
  by destruct (loop _ _ _ _ _ _ _ _ _ t1) as [[[g2 l2] a2] t2].
Qed.

Lemma loop_returned clock cfg timeout restart g l inputs t :
  returned l = true ->
  loop Match render clock cfg timeout restart g l inputs t = (g, l, [], t).
Proof.
  intros Hret. destruct inputs as [ | [w i] rest]; [ done | ].
  by rewrite loop_cons, Hret.
Qed.

Lemma step_kind w clock cfg timeout restart g l i t :
  stepKind Match render g l t w clock cfg timeout restart i
    (step Match render w clock cfg timeout restart g l i t).
Proof.
  destruct i as [ev | | ]; [ | constructor | constructor ].
  rewrite step_event. cbv zeta.
  destruct (passes w g l ev) eqn:Hpass; [ | by constructor ].
  destruct (String.eqb_spec
              (getAppropriateCommand Match render
                 (Name (default zeroEvent ev)) cfg) "") as [Hempty | Hne].
  - by constructor.
  - replace (match ongoingCommand l with
             | Some c => [Kill c "Restart"]
             | None => []
             end)
      with (map (fun c => Kill c "Restart") (tracked l))
      by (unfold tracked; by destruct (ongoingCommand l)).
    by constructor.
Qed.

(** Abstract the result of one iteration into its case. *)
Ltac step_cases w clock cfg timeout restart g l i t :=
  let Hk := fresh "Hk" in
  let r := fresh "r" in
  let Hr := fresh "Hr" in
  pose proof (step_kind w clock cfg timeout restart g l i t) as Hk;
  remember (step Match render w clock cfg timeout restart g l i t)
    as r eqn:Hr;
  clear Hr; inversion Hk; subst; clear Hk;
  unfold gazerOf, localsOf, actionsOf in *; cbn [fst snd] in *.

(** X13. The interrupt ends the loop: what is received after it is never
    handled, the loop has returned, and the dispatcher, the actions and
    the clock are those reached at the interrupt. *)
Theorem interrupt_ends_the_loop
    (clock : nat -> Z) (cfg : Config) (timeout : Z) (restart : bool)
    (g : Gazer) (l : locals) (before after : list (World * input))
    (w : World) (t : nat) :
  let r := loop Match render clock cfg timeout restart g l
             (before ++ (w, OnSigInt) :: after) t in
  r = loop Match render clock cfg timeout restart g l
        (before ++ [(w, OnSigInt)]) t
  /\ returned (localsOf r) = true
  /\ actionsOf r
     = actionsOf (loop Match render clock cfg timeout restart g l before t).
Proof.
  cbv zeta. revert g l t.
  induction before as [ | [w' i] rest IH]; intros g l t.
  - cbn [app]. rewrite !loop_cons.
    destruct (returned l) eqn:Hret.
    + rewrite loop_returned by done. by unfold localsOf, actionsOf.
    + cbv zeta. step_cases w clock cfg timeout restart g l OnSigInt t.
      rewrite (loop_returned clock cfg timeout restart g _ after) by done.
      cbn [loop fst snd]. unfold Clock.ret. done.
  - rewrite <- !app_comm_cons, !loop_cons.
    destruct (returned l) eqn:Hret.
    + unfold localsOf, actionsOf. cbn [fst snd]. done.
    + cbv zeta.
      destruct (IH (gazerOf (step Match render w' clock cfg timeout restart
                               g l i t))
                  (localsOf (step Match render w' clock cfg timeout restart
                               g l i t))
                  (snd (step Match render w' clock cfg timeout restart
                          g l i t))) as (Heq & Hret' & Hacts).
      rewrite <- Heq. split; [ done | ]. split; [ exact Hret' | ].
      unfold actionsOf at 1 4. cbn [fst snd]. by rewrite Hacts.
Qed.

(** X14. While no goroutine ends, the commands the loop tracked plus the
    commands it started in a goroutine are the commands it killed plus
    the command it tracks at the end, in this order: a tracked command
    is killed before the next command is started, and no command is
    killed that was not tracked. *)
Theorem tracked_commands_are_killed_before_the_next
    (clock : nat -> Z) (cfg : Config) (timeout : Z) (restart : bool)
    (g : Gazer) (l : locals) (inputs : list (World * input)) (t : nat) :
  Forall (fun wi => snd wi <> GoroutineEnd) inputs ->
  let r := loop Match render clock cfg timeout restart g l inputs t in
  tracked l ++ spawned (actionsOf r)
  = killed (actionsOf r) ++ tracked (localsOf r).
Proof.
  cbv zeta. intros Hno. revert g l t.
  induction Hno as [ | [w i] rest Hi _ IH]; intros g l t.
  - cbn. by rewrite app_nil_r.
  - rewrite loop_cons. destruct (returned l) eqn:Hret.
    + cbn. by rewrite app_nil_r.
    + cbv zeta.
      pose proof (IH (gazerOf (step Match render w clock cfg timeout restart
                                 g l i t))
                    (localsOf (step Match render w clock cfg timeout restart
                                 g l i t))
                    (snd (step Match render w clock cfg timeout restart
                            g l i t))) as IH'.
      step_cases w clock cfg timeout restart g l i t;
        rewrite spawned_app, killed_app.
      * exact IH'.
      * exact IH'.
      * rewrite killed_dispatch, spawned_dispatch
          by (intros; by destruct restart).
        rewrite <- (app_assoc (tracked l)), <- IH'. f_equal. f_equal.
        by destruct restart.
      * exact IH'.
      * by destruct Hi.
Qed.

(** X15. Without restart mode, and with no command tracked at the start,
    the loop never kills a command and never starts one in a goroutine,
    and it tracks none at the end: every command is run to its end, or
    to its timeout, inside the iteration that started it. *)
Theorem blocking_mode_never_kills
    (clock : nat -> Z) (cfg : Config) (timeout : Z)
    (g : Gazer) (l : locals) (inputs : list (World * input)) (t : nat) :
  ongoingCommand l = None ->
  let r := loop Match render clock cfg timeout false g l inputs t in
  killed (actionsOf r) = []
  /\ spawned (actionsOf r) = []
  /\ ongoingCommand (localsOf r) = None.
Proof.
  cbv zeta. revert g l t.
  induction inputs as [ | [w i] rest IH]; intros g l t Hnone; [ done | ].
  rewrite loop_cons. destruct (returned l) eqn:Hret; [ done | ].
  cbv zeta.
  pose proof (IH (gazerOf (step Match render w clock cfg timeout false
                             g l i t))
                (localsOf (step Match render w clock cfg timeout false
                             g l i t))
                (snd (step Match render w clock cfg timeout false
                        g l i t))) as IH'.
  step_cases w clock cfg timeout false g l i t;
    rewrite spawned_app, killed_app;
    try (destruct (IH' Hnone) as (-> & -> & ->); done).
  - rewrite killed_dispatch, spawned_dispatch by done.
    destruct (IH' eq_refl) as (-> & -> & ->).
    unfold tracked. by rewrite Hnone.
  - by destruct (IH' eq_refl) as (-> & -> & ->).
Qed.

(** X16. The counter after the loop is the counter before it plus the
    number of commands started and of events for which no command was
    found, modulo 2^64. *)
Theorem counter_counts_dispatches_and_misses
    (clock : nat -> Z) (cfg : Config) (timeout : Z) (restart : bool)
    (g : Gazer) (l : locals) (inputs : list (World * input)) (t : nat) :
  0 <= Counter g < Int64.modulus ->
  let r := loop Match render clock cfg timeout restart g l inputs t in
  Counter (gazerOf r)
  = (Counter g
     + Z.of_nat (length (started (actionsOf r))
                 + length (notFound (actionsOf r)))) mod Int64.modulus.
Proof.
  cbv zeta. revert g l t.
  assert (Hincr : forall g0 k,
             (Int64.uincr (Counter g0) + Z.of_nat k) mod Int64.modulus
             = (Counter g0 + Z.of_nat (S k)) mod Int64.modulus).
  { intros g0 k. unfold Int64.uincr.
    rewrite Z.add_mod_idemp_l by (unfold Int64.modulus; lia).
    f_equal. lia. }
  assert (Hrange : forall g0,
             0 <= Counter (incrCounter g0) < Int64.modulus).
  { intros g0. unfold incrCounter, Counter, Int64.uincr. cbn [counter].
    apply Z.mod_pos_bound. unfold Int64.modulus. lia. }
  induction inputs as [ | [w i] rest IH]; intros g l t Hc.
  - cbn. rewrite Z.add_0_r, Z.mod_small; done.
  - rewrite loop_cons. destruct (returned l) eqn:Hret.
    + cbn. rewrite Z.add_0_r, Z.mod_small; done.
    + cbv zeta.
      pose proof (IH (gazerOf (step Match render w clock cfg timeout restart
                                 g l i t))
                    (localsOf (step Match render w clock cfg timeout restart
                                 g l i t))
                    (snd (step Match render w clock cfg timeout restart
                            g l i t))) as IH'.
      step_cases w clock cfg timeout restart g l i t;
        rewrite started_app, notFound_app.
      * by apply IH'.
      * rewrite (IH' (Hrange g)).
        change (Counter (incrCounter g)) with (Int64.uincr (Counter g)).
        rewrite Hincr. cbn [started notFound omap list_omap app length].
        f_equal; lia.
      * rewrite (IH' (Hrange g)).
        change (Counter (incrCounter g)) with (Int64.uincr (Counter g)).
        rewrite Hincr, started_dispatch, notFound_dispatch
          by (intros; by destruct restart).
        rewrite started_last. rewrite !length_app. cbn [length app].
        f_equal; lia.
      * by apply IH'.
      * by apply IH'.
Qed.

Lemma loop_patterns clock cfg timeout restart g l inputs t :
  patterns (gazerOf (loop Match render clock cfg timeout restart g l
                       inputs t)) = patterns g.
Proof.
  revert g l t. induction inputs as [ | [w i] rest IH]; intros g l t;
    [ done | ].
  rewrite loop_cons. destruct (returned l) eqn:Hret; [ done | ].
  cbv zeta.
  pose proof (IH (gazerOf (step Match render w clock cfg timeout restart
                             g l i t))
                (localsOf (step Match render w clock cfg timeout restart
                             g l i t))
                (snd (step Match render w clock cfg timeout restart
                        g l i t))) as IH'.
  step_cases w clock cfg timeout restart g l i t; exact IH'.
Qed.

(** X17. Every command the loop starts is the non-empty command that
    [getAppropriateCommand] gives for the name of an event it received,
    and that name matched one of the patterns of the dispatcher in the
    world of that moment: the loop never runs an empty command, nor a
    command for a file outside the patterns. The patterns are those the
    dispatcher was built with. *)
Theorem started_commands_come_from_matching_events
    (clock : nat -> Z) (cfg : Config) (timeout : Z) (restart : bool)
    (g : Gazer) (l : locals) (inputs : list (World * input)) (t : nat) :
  let r := loop Match render clock cfg timeout restart g l inputs t in
  patterns (gazerOf r) = patterns g
  /\ (forall c : string,
        c ∈ started (actionsOf r) ->
        c <> ""
        /\ exists (w : World) (ev : option Event),
             (w, OnEvents ev) ∈ inputs
             /\ c = getAppropriateCommand Match render
                      (Name (default zeroEvent ev)) cfg
             /\ matchAny w (patterns g) (Name (default zeroEvent ev))
                = true).
Proof.
  cbv zeta. split; [ apply loop_patterns | ].
  revert g l t. induction inputs as [ | [w i] rest IH]; intros g l t c.
  - cbn. intros H. by apply elem_of_nil in H.
  - rewrite loop_cons. destruct (returned l) eqn:Hret.
    + cbn. intros H. by apply elem_of_nil in H.
    + cbv zeta.
      pose proof (IH (gazerOf (step Match render w clock cfg timeout restart
                                 g l i t))
                    (localsOf (step Match render w clock cfg timeout restart
                                 g l i t))
                    (snd (step Match render w clock cfg timeout restart
                            g l i t)) c) as IH'.
      assert (Hrest :
        (c <> ""
         /\ exists (w0 : World) (ev : option Event),
              (w0, OnEvents ev) ∈ rest
              /\ c = getAppropriateCommand Match render
                       (Name (default zeroEvent ev)) cfg
              /\ matchAny w0 (patterns g) (Name (default zeroEvent ev))
                 = true) ->
        c <> ""
        /\ exists (w0 : World) (ev : option Event),
             (w0, OnEvents ev) ∈ (w, i) :: rest
             /\ c = getAppropriateCommand Match render
                      (Name (default zeroEvent ev)) cfg
             /\ matchAny w0 (patterns g) (Name (default zeroEvent ev))
                = true).
      { intros (Hc & w0 & ev & Hin & Hmore). split; [ done | ].
        exists w0, ev. split; [ by apply list_elem_of_further | done ]. }
      step_cases w clock cfg timeout restart g l i t;
        rewrite started_app; intros [Hin | Hin]%elem_of_app;
        try (by apply Hrest, IH');
        try (cbn in Hin; by apply elem_of_nil in Hin).
      rewrite started_dispatch, started_last in Hin. cbn [commandLine] in Hin.
      apply list_elem_of_singleton in Hin. subst c.
        split; [ done | ]. exists w, ev.
        split; [ apply list_elem_of_here | ]. split; [ done | ].
        match goal with
        | H : passes _ _ _ _ = true |- _ =>
            rewrite passes_without_op_filter in H;
            by apply andb_true_iff in H as [H _]
        end.
Qed.

(** X18. A dispatcher without patterns ignores whatever it receives: it
    counts nothing, starts and kills nothing, and its debounce timestamp
    stays. *)
Theorem no_patterns_no_dispatch
    (clock : nat -> Z) (cfg : Config) (timeout : Z) (restart : bool)
    (g : Gazer) (l : locals) (inputs : list (World * input)) (t : nat) :
  patterns g = [] ->
  let r := loop Match render clock cfg timeout restart g l inputs t in
  gazerOf r = g
  /\ started (actionsOf r) = [] /\ killed (actionsOf r) = []
  /\ notFound (actionsOf r) = []
  /\ lastExecutionTime (localsOf r) = lastExecutionTime l
  /\ snd r = t.
Proof.
  cbv zeta. intros Hnone. revert l t.
  induction inputs as [ | [w i] rest IH]; intros l t; [ done | ].
  rewrite loop_cons. destruct (returned l) eqn:Hret; [ done | ].
  cbv zeta.
  assert (Hpass : forall ev, passes w g l ev = false).
  { intros ev. rewrite passes_without_op_filter, Hnone. reflexivity. }
  pose proof (fun l' => IH l' t) as IH'.
  step_cases w clock cfg timeout restart g l i t;
    rewrite started_app, killed_app, notFound_app;
    try (match goal with
         | H : passes _ _ _ _ = true |- _ => by rewrite Hpass in H
         end).
  - destruct (IH' l) as (-> & -> & -> & -> & -> & ->). done.
  - destruct (IH' {| lastExecutionTime := lastExecutionTime l;
                     ongoingCommand := ongoingCommand l;
                     returned := true |})
      as (-> & -> & -> & -> & -> & ->). done.
  - destruct (IH' {| lastExecutionTime := lastExecutionTime l;
                     ongoingCommand := None; returned := returned l |})
      as (-> & -> & -> & -> & -> & ->). done.
Qed.

(** X19. A dispatcher built after the construction of the notifier
    failed has a nil notifier: [New] returns it without an error, and
    both [Run] and [Close] then panic on the nil pointer, whatever is
    received. *)
Theorem dispatcher_without_notifier_panics
    (notifyNew : list string
                 -> outcome (option Notify.Notify * option error))
    (rawPatterns : list string) (err : option error) :
  notifyNew (map Path.Clean rawPatterns) = Returned (None, err) ->
  exists g : Gazer,
    New notifyNew rawPatterns = Returned g
    /\ notify g = None
    /\ patterns g = map Path.Clean rawPatterns
    /\ Close g = Panicked "nil pointer dereference"
    /\ (forall clock cfg timeout restart inputs t,
          GazerRun Match render clock cfg timeout restart g inputs t
          = Panicked "nil pointer dereference").
Proof.
  intros Hfail. unfold New. rewrite Hfail. eexists. split; [ reflexivity | ].
  repeat split.
Qed.

End Dispatch.

(** X20. [Close] of a dispatcher that has a notifier is idempotent: the
    first call closes the notifier, and through it the watch source at
    most once, and marks the dispatcher closed; a further call does
    nothing. The patterns and the counter are kept. *)
Theorem gazer_Close_is_idempotent (g : Gazer) (n : Notify.Notify) :
  notify g = Some n ->
  exists (g1 : Gazer) (calls : nat),
    Close g = Returned (g1, calls)
    /\ Close g1 = Returned (g1, 0%nat)
    /\ isClosed g1 = true
    /\ (calls <= 1)%nat
    /\ (isClosed g = false -> Notify.isClosed n = false -> calls = 1%nat)
    /\ (isClosed g = false ->
        exists n1, notify g1 = Some n1 /\ Notify.isClosed n1 = true)
    /\ patterns g1 = patterns g /\ counter g1 = counter g.
Proof.
  intros Hn. unfold Close at 1. rewrite Hn.
  destruct (isClosed g) eqn:Hclosed.
  - exists g, 0%nat. unfold Close. rewrite Hclosed.
    repeat split; try done; lia.
  - unfold Notify.Close.
    destruct (Notify.isClosed n) eqn:Hnc; eexists _, _;
      (split; [ reflexivity | ]); unfold Close; cbn [isClosed notify];
      repeat split; try done; try lia; eexists; split; done.
Qed.

(** The theorem at work: the sample dispatcher. *)
Lemma gazer_Close_is_idempotent_witness :
  exists (g1 : Gazer) (calls : nat),
    Close Sample.gazer = Returned (g1, calls)
    /\ Close g1 = Returned (g1, 0%nat)
    /\ calls = 1%nat.
Proof.
  destruct (gazer_Close_is_idempotent Sample.gazer Sample.fresh eq_refl)
    as (g1 & calls & Hfirst & Hsecond & _ & _ & Hcalls & _).
  exists g1, calls. split; [ exact Hfirst | ]. split; [ exact Hsecond | ].
  apply Hcalls; reflexivity.
Defined.

(** The theorem at work: the notifier refused for too many directories. *)
Lemma dispatcher_without_notifier_panics_witness :
  exists g : Gazer,
    New (fun ps => fst (Notify.New (Sample.disk Sample.epoch) ps 1))
      ["*.txt"; "src/*.go"] = Returned g
    /\ GazerRun Sample.matchExt Sample.render
         (Sample.clockFrom Sample.epoch) Sample.config 0 false g [] 0%nat
       = Panicked "nil pointer dereference".
Proof.
  destruct (dispatcher_without_notifier_panics
              Sample.matchExt Sample.render
              (fun ps => fst (Notify.New (Sample.disk Sample.epoch) ps 1))
              ["*.txt"; "src/*.go"]
              (Some (mkError "too many watchDirs")))
    as (g & Hnew & _ & _ & _ & Hrun).
  - vm_compute. reflexivity.
  - exists g. split; [ exact Hnew | apply Hrun ].
Defined.

(** The theorem at work: in restart mode [notes.txt] is updated twice,
    a second apart; the first command is killed before the second is
    started. *)
Lemma tracked_commands_are_killed_before_the_next_witness :
  let r := loop Sample.matchExt Sample.render
             (Sample.clockFrom (Sample.epoch + Sample.ms 5))
             Sample.config 0 true Sample.gazer initLocals
             [(Sample.disk Sample.epoch,
               OnEvents (Some (Sample.event "notes.txt" Op.Write)));
              (Sample.disk (Sample.epoch + Sample.ms 1000),
               OnEvents (Some (Sample.event "notes.txt" Op.Write)))]
             0%nat in
  tracked initLocals ++ spawned (actionsOf r)
  = killed (actionsOf r) ++ tracked (localsOf r).
Proof.
  apply (tracked_commands_are_killed_before_the_next
           Sample.matchExt Sample.render).
  repeat constructor; discriminate.
Defined.

(** The theorem at work: the same two updates without restart mode. *)
Lemma blocking_mode_never_kills_witness :
  let r := loop Sample.matchExt Sample.render
             (Sample.clockFrom (Sample.epoch + Sample.ms 5))
             Sample.config 0 false Sample.gazer initLocals
             [(Sample.disk Sample.epoch,
               OnEvents (Some (Sample.event "notes.txt" Op.Write)));
              (Sample.disk (Sample.epoch + Sample.ms 1000),
               OnEvents (Some (Sample.event "notes.txt" Op.Write)))]
             0%nat in
  killed (actionsOf r) = []
  /\ spawned (actionsOf r) = []
  /\ ongoingCommand (localsOf r) = None.
Proof.
  apply (blocking_mode_never_kills Sample.matchExt Sample.render).
  reflexivity.
Defined.

(** The theorem at work: one update with a command, one without. *)
Lemma counter_counts_dispatches_and_misses_witness :
  let r := loop Sample.matchExt Sample.render
             (Sample.clockFrom (Sample.epoch + Sample.ms 5))
             Sample.txtOnly 0 false Sample.gazer initLocals
             [(Sample.disk Sample.epoch,
               OnEvents (Some (Sample.event "notes.txt" Op.Write)));
              (Sample.disk (Sample.epoch + Sample.ms 1000),
               OnEvents (Some (Sample.event "src/main.go" Op.Write)))]
             0%nat in
  Counter (gazerOf r)
  = (Counter Sample.gazer
     + Z.of_nat (length (started (actionsOf r))
                 + length (notFound (actionsOf r)))) mod Int64.modulus.
Proof.
  apply (counter_counts_dispatches_and_misses
           Sample.matchExt Sample.render).
  vm_compute. split; [ discriminate | reflexivity ].
Defined.

(** The theorem at work: a dispatcher built with no pattern. *)
Lemma no_patterns_no_dispatch_witness :
  let g := {| patterns := []; notify := Some Sample.fresh;
              isClosed := false; counter := 0 |} in
  let r := loop Sample.matchExt Sample.render
             (Sample.clockFrom (Sample.epoch + Sample.ms 5))
             Sample.config 0 false g initLocals
             [(Sample.disk Sample.epoch,
               OnEvents (Some (Sample.event "notes.txt" Op.Write)))]
             0%nat in
  gazerOf r = g
  /\ started (actionsOf r) = [] /\ killed (actionsOf r) = []
  /\ notFound (actionsOf r) = []
  /\ lastExecutionTime (localsOf r) = lastExecutionTime initLocals
  /\ snd r = 0%nat.
Proof.
  apply (no_patterns_no_dispatch Sample.matchExt Sample.render).
  reflexivity.
Defined.

End DispatcherRun.
